(** * newspaper_with_cookies.network: a shallow embedding and its properties

    The module under study is [newspaper_with_cookies/network.py]: the
    request-option builder [get_request_kwargs], the two single-fetch entry
    points [get_html] and [get_html_2XX_only], the response normaliser
    [_get_html_from_response], the task class [MRequest] and the batch
    function [multithread_request].

    Python objects that the code mutates live in explicit state: cookie
    dictionaries in a store addressed by references, the response object as
    the state of the normaliser, the task objects as a list updated by
    index.  Exceptions are values of [exn] carried by [Raise].  Everything
    the module imports from elsewhere ([requests], [json], [open], the
    [Configuration] constructor, the thread pool) is a field of the
    environment record [Env]. *)

From Stdlib Require Import ZArith Lia.
From Stdlib.Strings Require Import String Ascii Byte.
From stdpp Require Import base option list gmap strings fin_maps.

Local Open Scope string_scope.
Local Open Scope Z_scope.

(* ===================================================================== *)
(** ** Module constants (network.py lines 22-23) *)
(* ===================================================================== *)

Definition FAIL_ENCODING : string := "ISO-8859-1".

Definition FILTERED_ATTR : list string :=
  ["hostOnly"; "session"; "storeId"; "id"; "sameSite"; "httpOnly";
   "expirationDate"].

(* ===================================================================== *)
(** ** Data model *)
(* ===================================================================== *)

(** Values found in a cookie record read from JSON. *)
Inductive attr_value : Type :=
  | VStr (s : string)
  | VNum (n : Z)
  | VBool (b : bool)
  | VNull.

(** A cookie record is a Python dict from attribute names to values. *)
Abbreviation cookie := (gmap string attr_value).

(** Cookie dicts are objects: lists hold references to them. *)
Abbreviation loc := positive.

(** Exceptions.  All of them derive from Python's [Exception];
    [RequestException] stands for [requests.exceptions.RequestException]
    and its subclasses. *)
Inductive request_exception : Type :=
  | ConnectionError
  | Timeout
  | HTTPError
  | TooManyRedirects
  | InvalidURL.

Inductive exn : Type :=
  | RequestException (e : request_exception)
  | OSError
  | ValueError
  | TypeError
  | AttributeError
  | KeyError
  | Unallocated.  (* dereference outside the store; no Python run reaches it *)

Definition is_RequestException (e : exn) : bool :=
  match e with RequestException _ => true | _ => false end.

(** [except Exception] catches every member of [exn]. *)
Definition is_Exception (e : exn) : bool := true.

Inductive outcome (A : Type) : Type :=
  | Ret (a : A)
  | Raise (e : exn).
Arguments Ret {A} a.
Arguments Raise {A} e.

(** What [_get_html_from_response] can hand back: a [str] or the raw
    [bytes] of the body. *)
Inductive html : Type :=
  | Text (s : string)
  | Raw (b : list Byte.byte).

(** Python's [html or '']: an empty [str] or empty [bytes] is falsy. *)
Definition or_empty (h : html) : html :=
  match h with
  | Text s => Text s
  | Raw [] => Text ""
  | Raw (x :: b) => Raw (x :: b)
  end.

(** A [requests.Response], as far as this module reads or writes it. *)
Module Response.
Record t : Type := mk {
  headers : gmap string string;   (* response.headers *)
  encoding : option string;       (* response.encoding, may be None *)
  content : list Byte.byte;       (* response.content *)
  status_code : Z
}.

(** [response.encoding = enc] *)
Definition set_encoding (enc : option string) (r : t) : t :=
  {| headers := headers r; encoding := enc; content := content r;
     status_code := status_code r |}.
End Response.

(** Modelled from the spec: the class [Configuration] of configuration.py,
    which is not part of the sources at hand.  The fields are the ones
    network.py reads; [cookies] is a list of references because the cookie
    dicts are shared with whoever built the configuration. *)
Module Configuration.
Record t : Type := mk {
  browser_user_agent : string;
  request_timeout : Z;
  proxies : gmap string string;
  headers : option (gmap string string);
  cookies : list loc;
  cookies_file : string;
  http_success_only : bool;
  ignored_content_types_defaults : gmap string string;
  number_threads : nat;
  thread_timeout_seconds : Z
}.

Definition set_cookies (cs : list loc) (c : t) : t :=
  {| browser_user_agent := browser_user_agent c;
     request_timeout := request_timeout c;
     proxies := proxies c;
     headers := headers c;
     cookies := cs;
     cookies_file := cookies_file c;
     http_success_only := http_success_only c;
     ignored_content_types_defaults := ignored_content_types_defaults c;
     number_threads := number_threads c;
     thread_timeout_seconds := thread_timeout_seconds c |}.
End Configuration.

(** The dict returned by [get_request_kwargs]. *)
Record request_kwargs : Type := mkKwargs {
  kw_headers : gmap string string;
  kw_cookies : list cookie;
  kw_timeout : Z;
  kw_allow_redirects : bool;
  kw_proxies : gmap string string
}.

Inductive level : Type := DEBUG | INFO | ERROR | CRITICAL.

Inductive log_msg : Type :=
  | MsgLoadingCookieFile
  | MsgFailedLoading (path : string) (e : exn)
  | MsgRequestFailed (e : exn)
  | MsgGetHtmlError (e : exn) (url : string).

(** Observable effects, in the order they happen. *)
Inductive event : Type :=
  | Log (lvl : level) (msg : log_msg)
  | Open (path : string)
  | Get (url : string) (kw : request_kwargs).

Definition is_Get (ev : event) : bool :=
  match ev with Get _ _ => true | _ => false end.

Record World : Type := mkWorld {
  heap : gmap loc cookie;
  trace : list event
}.

Definition set_heap (h : gmap loc cookie) (w : World) : World :=
  {| heap := h; trace := trace w |}.

Definition emit (ev : event) (w : World) : World :=
  {| heap := heap w; trace := trace w ++ [ev] |}.

(* ===================================================================== *)
(** ** State and exception monad *)
(* ===================================================================== *)

Definition M (S A : Type) : Type := S -> outcome A * S.

Definition ret {S A : Type} (a : A) : M S A := fun s => (Ret a, s).

Definition raise {S A : Type} (e : exn) : M S A := fun s => (Raise e, s).

Definition bind {S A B : Type} (m : M S A) (k : A -> M S B) : M S B :=
  fun s =>
    match m s with
    | (Ret a, s') => k a s'
    | (Raise e, s') => (Raise e, s')
    end.

(** [try: m except C as e: handler e] where [catches] decides membership
    in the class [C]. *)
Definition try_except {S A : Type} (m : M S A) (catches : exn -> bool)
    (handler : exn -> M S A) : M S A :=
  fun s =>
    match m s with
    | (Ret a, s') => (Ret a, s')
    | (Raise e, s') => if catches e then handler e s' else (Raise e, s')
    end.

Definition lift_outcome {S A : Type} (o : outcome A) : M S A :=
  fun s => (o, s).

Declare Scope py_scope.
Delimit Scope py_scope with py.
Notation "x <- c1 ;; c2" := (bind c1 (fun x => c2))
  (at level 100, c1 at next level, right associativity) : py_scope.
Notation "c1 ;;; c2" := (bind c1 (fun _ => c2))
  (at level 100, right associativity) : py_scope.

Definition log (lvl : level) (msg : log_msg) : M World unit :=
  fun w => (Ret tt, emit (Log lvl msg) w).

(** Reading and writing a cookie dict through its reference. *)
Definition deref (l : loc) : M World cookie :=
  fun w =>
    match heap w !! l with
    | Some c => (Ret c, w)
    | None => (Raise Unallocated, w)
    end.

Definition store (l : loc) (c : cookie) : M World unit :=
  fun w => (Ret tt, set_heap (<[l := c]> (heap w)) w).

(** A freshly built dict gets a reference nothing else holds. *)
Definition alloc (c : cookie) : M World loc :=
  fun w =>
    let l := fresh (dom (heap w)) in
    (Ret l, set_heap (<[l := c]> (heap w)) w).

Fixpoint alloc_all (cs : list cookie) : M World (list loc) :=
  match cs with
  | [] => ret []
  | c :: cs' =>
      (l <- alloc c ;;
       ls <- alloc_all cs' ;;
       ret (l :: ls))%py
  end.

(* ===================================================================== *)
(** ** The attribute-strip rule (network.py lines 34-36) *)
(* ===================================================================== *)

(** One pass of the inner loop body:
    [if attr in cookie.keys(): del cookie[attr]]. *)
Definition strip_attr (c : cookie) (attr : string) : cookie :=
  if decide (is_Some (c !! attr)) then delete attr c else c.

(** [for attr in FILTERED_ATTR: ...] on the contents of one dict. *)
Definition strip (c : cookie) : cookie := foldl strip_attr c FILTERED_ATTR.


(* ===================================================================== *)
(** ** The environment: what network.py imports *)
(* ===================================================================== *)

(** The network and the file system answer as oracles that may depend on
    everything that happened before (the trace so far).
    - [new_Configuration], [new_Configuration_cookies]: the record built by
      [Configuration()] and the contents of its own, fresh cookie dicts;
    - [create_cookie]: [requests.cookies.create_cookie] applied to the record as
      keyword arguments; it rejects some records with an exception;
    - [requests_get]: [requests.get];
    - [raise_for_status]: [response.raise_for_status()];
    - [json_load]: [open(path, 'rb')] followed by [json.load];
    - [decode]: [response.text] as a function of [response.encoding] and
      [response.content];
    - [get_encodings_from_content]: the function of [requests.utils];
    - [pool_order]: the order in which the workers of a thread pool of the
      given size and timeout finish the submitted tasks before
      [wait_completion] returns. *)
Record Env : Type := mkEnv {
  new_Configuration : Configuration.t;
  new_Configuration_cookies : list cookie;
  create_cookie : cookie -> outcome cookie;
  requests_get : list event -> string -> request_kwargs -> outcome Response.t;
  raise_for_status : Response.t -> outcome unit;
  json_load : list event -> string -> outcome (list cookie);
  decode : option string -> list Byte.byte -> string;
  get_encodings_from_content : string -> list string;
  pool_order : nat -> Z -> nat -> list nat
}.

(** [response.text] *)
Definition text (E : Env) (r : Response.t) : string :=
  decode E (Response.encoding r) (Response.content r).

(** [Configuration()]: a new object with cookie dicts of its own. *)
Definition Configuration_new (E : Env) : M World Configuration.t :=
  (ls <- alloc_all (new_Configuration_cookies E) ;;
   ret (Configuration.set_cookies ls (new_Configuration E)))%py.

(** [config or Configuration()] *)
Definition config_or_default (E : Env) (config : option Configuration.t)
    : M World Configuration.t :=
  match config with
  | Some c => ret c
  | None => Configuration_new E
  end.

(** [with open(path, 'rb') as f: json.load(f)]; the dicts it builds are
    new objects. *)
Definition open_json_load (E : Env) (path : string) : M World (list loc) :=
  (cs <- (fun w => (json_load E (trace w) path, emit (Open path) w)) ;;
   alloc_all cs)%py.

(** [requests.get] on [url] with the keyword arguments [kw] *)
Definition get (E : Env) (url : string) (kw : request_kwargs)
    : M World Response.t :=
  fun w => (requests_get E (trace w) url kw, emit (Get url kw) w).

(** Python's [needle in hay] on strings. *)
Fixpoint contains (needle hay : string) : bool :=
  String.prefix needle hay ||
  match hay with
  | EmptyString => false
  | String _ hay' => contains needle hay'
  end.

(* ===================================================================== *)
(** ** get_request_kwargs (network.py lines 26-47) *)
(* ===================================================================== *)

(** The loop of lines 33-39 over the list [cookies], with the jar built so
    far.  Modelled from the spec: [cj()] of settings.py, not part of the
    sources at hand, gives an empty cookie container; the container is the
    list of the cookies handed to [jar.set_cookie], in that order.  The
    deletion of line 36 happens in the dict the reference points to. *)
Fixpoint fill_jar (E : Env) (cookies : list loc) (jar : list cookie)
    : M World (list cookie) :=
  match cookies with
  | [] => ret jar
  | cookie :: rest =>
      (c <- deref cookie ;;
       store cookie (strip c) ;;;
       c' <- deref cookie ;;
       my_cookie <- lift_outcome (create_cookie E c') ;;
       fill_jar E rest (jar ++ [my_cookie]))%py
  end.

(** [headers if headers else {'User-Agent': useragent}]: [None] and the
    empty dict are falsy. *)
Definition headers_or_useragent (headers : option (gmap string string))
    (useragent : string) : gmap string string :=
  match headers with
  | Some h => if decide (h = ∅) then {[ "User-Agent" := useragent ]} else h
  | None => {[ "User-Agent" := useragent ]}
  end.

Definition get_request_kwargs (E : Env) (timeout : Z) (useragent : string)
    (proxies : gmap string string) (headers : option (gmap string string))
    (cookies : list loc) : M World request_kwargs :=
  (jar <- fill_jar E cookies [] ;;
   ret {| kw_headers := headers_or_useragent headers useragent;
          kw_cookies := jar;
          kw_timeout := timeout;
          kw_allow_redirects := true;
          kw_proxies := proxies |})%py.

(* ===================================================================== *)
(** ** _get_html_from_response (network.py lines 98-112) *)
(* ===================================================================== *)

(** The response object is the state: line 109 assigns to
    [response.encoding]. *)
Definition _get_html_from_response (E : Env) (config : Configuration.t)
    : M Response.t html :=
  fun response =>
    let ctype := Response.headers response !! "content-type" in
    let ignored := Configuration.ignored_content_types_defaults config in
    match ctype ≫= (fun ct => ignored !! ct) with
    | Some literal => (Ret (Text literal), response)
    | None =>
        if decide (Response.encoding response ≠ Some FAIL_ENCODING) then
          (Ret (or_empty (Text (text E response))), response)
        else
          let html := Raw (Response.content response) in
          match ctype with
          | None => (Raise TypeError, response)   (* 'charset' not in None *)
          | Some ct =>
              if negb (contains "charset" ct) then
                match get_encodings_from_content E (text E response) with
                | enc :: _ =>
                    let response' := Response.set_encoding (Some enc) response in
                    (Ret (or_empty (Text (text E response'))), response')
                | [] => (Ret (or_empty html), response)
                end
              else (Ret (or_empty html), response)
          end
    end.

(* ===================================================================== *)
(** ** get_html_2XX_only and get_html (network.py lines 50-95) *)
(* ===================================================================== *)

(** Lines 71-79: which cookie list the request will use. *)
Definition load_cookies_2XX (E : Env) (config : Configuration.t)
    : M World (list loc) :=
  if decide (Configuration.cookies_file config ≠ "") then
    (log INFO MsgLoadingCookieFile ;;;
     try_except (open_json_load E (Configuration.cookies_file config))
       is_Exception
       (fun e =>
          log ERROR (MsgFailedLoading (Configuration.cookies_file config) e) ;;;
          ret (Configuration.cookies config)))%py
  else ret (Configuration.cookies config).

(** Lines 83-95, with [cookies] as left by lines 71-79.  A response handed
    in by the caller is the caller's object: what line 109 may write to it
    is not read again here, so only the returned value is kept. *)
Definition fetch_2XX (E : Env) (url : string) (config : Configuration.t)
    (cookies : list loc) (response : option Response.t) : M World html :=
  let useragent := Configuration.browser_user_agent config in
  let timeout := Configuration.request_timeout config in
  let proxies := Configuration.proxies config in
  let headers := Configuration.headers config in
  match response with
  | Some response =>
      lift_outcome (fst (_get_html_from_response E config response))
  | None =>
      (kw <- get_request_kwargs E timeout useragent proxies headers cookies ;;
       response <- get E url kw ;;
       let '(result, response) := _get_html_from_response E config response in
       html <- lift_outcome result ;;
       (if Configuration.http_success_only config
        then lift_outcome (raise_for_status E response)
        else ret tt) ;;;
       ret html)%py
  end.

Definition get_html_2XX_only (E : Env) (url : string)
    (config : option Configuration.t) (response : option Response.t)
    : M World html :=
  (config <- config_or_default E config ;;
   cookies <- load_cookies_2XX E config ;;
   fetch_2XX E url config cookies response)%py.

Definition get_html (E : Env) (url : string)
    (config : option Configuration.t) (response : option Response.t)
    : M World html :=
  try_except (get_html_2XX_only E url config response)
    is_RequestException
    (fun e => (log DEBUG (MsgGetHtmlError e url) ;;; ret (Text ""))%py).

(* ===================================================================== *)
(** ** class MRequest (network.py lines 115-150) *)
(* ===================================================================== *)

(** Run a computation on the world next to some other state. *)
Definition on_world {T A : Type} (m : M World A) : M (T * World) A :=
  fun '(t, w) => let '(o, w') := m w in (o, (t, w')).

Module MRequest.
Record t : Type := mk {
  url : string;
  config : option Configuration.t;
  useragent : string;
  timeout : Z;
  proxies : gmap string string;
  headers : option (gmap string string);
  cookies : list loc;
  cookies_file : string;
  resp : option Response.t
}.

(** [self.resp = r] *)
Definition set_resp (r : option Response.t) (self : t) : t :=
  {| url := url self; config := config self; useragent := useragent self;
     timeout := timeout self; proxies := proxies self;
     headers := headers self; cookies := cookies self;
     cookies_file := cookies_file self; resp := r |}.

(** [__init__], lines 121-131: [self.config] keeps the argument as it
    came, the other fields are read from [config or Configuration()]. *)
Definition init (E : Env) (url : string) (config : option Configuration.t)
    : M World t :=
  (config' <- config_or_default E config ;;
   ret {| url := url;
          config := config;
          useragent := Configuration.browser_user_agent config';
          timeout := Configuration.request_timeout config';
          proxies := Configuration.proxies config';
          headers := Configuration.headers config';
          cookies := Configuration.cookies config';
          cookies_file := Configuration.cookies_file config';
          resp := None |})%py.

(** Lines 134-142.  The [try] is not under the [if]: the file is opened
    whatever [self.cookies_file] is. *)
Definition load_cookies_send (E : Env) (self : t) : M World (list loc) :=
  ((if decide (cookies_file self ≠ "")
    then log INFO MsgLoadingCookieFile
    else ret tt) ;;;
   try_except (open_json_load E (cookies_file self))
     is_Exception
     (fun e =>
        log ERROR (MsgFailedLoading (cookies_file self) e) ;;;
        ret (cookies self)))%py.

(** Lines 144-150, with [cookies] as left by lines 134-142.  The state
    is the task object together with the world. *)
Definition send_with (E : Env) (cookies : list loc) : M (t * World) unit :=
  try_except
    (self <- (fun s => (Ret (fst s), s)) ;;
     kw <- on_world (get_request_kwargs E (timeout self) (useragent self)
                       (proxies self) (headers self) cookies) ;;
     r <- on_world (get E (url self) kw) ;;
     (fun '(self, w) => (Ret tt, (set_resp (Some r) self, w))) ;;;
     self <- (fun s => (Ret (fst s), s)) ;;
     match config self with
     | None => raise AttributeError   (* None has no http_success_only *)
     | Some c =>
         if Configuration.http_success_only c then
           match resp self with
           | Some r' => lift_outcome (raise_for_status E r')
           | None => raise AttributeError
           end
         else ret tt
     end)%py
    is_RequestException
    (fun e => on_world (log CRITICAL (MsgRequestFailed e))).

Definition send (E : Env) : M (t * World) unit :=
  (self <- (fun s => (Ret (fst s), s)) ;;
   cookies <- on_world (load_cookies_send E self) ;;
   send_with E cookies)%py.
End MRequest.

(* ===================================================================== *)
(** ** The thread pool *)
(* ===================================================================== *)

(** Modelled from the spec: the class [ThreadPool] of mthreading.py, which
    is not part of the sources at hand.  A pool has a fixed number of
    workers, a timeout and a queue of submitted callables.  [add_task]
    enqueues.  [wait_completion] returns when every callable has returned
    or when the wait times out.  Each callable is taken by one worker at
    most once; an exception that escapes a callable stays in its worker.
    A callable here runs without interleaving with the others; the order
    in which the callables run, and which of them have run when the wait
    ends, is given by the environment.  What is proved over this pool is
    kept to what neither an interleaving of the callables nor a callable
    still running after the wait can change. *)
Module ThreadPool.
Record t (S : Type) : Type := mk {
  worker_count : nat;
  per_task_timeout : Z;
  pending : list (M S unit)
}.
Arguments mk {S} _ _ _.
Arguments worker_count {S} _.
Arguments per_task_timeout {S} _.
Arguments pending {S} _.

Definition new {S : Type} (num_threads : nat) (timeout : Z) : t S :=
  mk num_threads timeout [].

Definition add_task {S : Type} (pool : t S) (task : M S unit) : t S :=
  mk (worker_count pool) (per_task_timeout pool) (pending pool ++ [task]).

(** Run the tasks named by [order]; [finished] lists those already
    taken. *)
Fixpoint run_order {S : Type} (tasks : list (M S unit)) (order : list nat)
    (finished : list nat) (s : S) : S :=
  match order with
  | [] => s
  | k :: order' =>
      match tasks !! k with
      | Some task =>
          if decide (k ∈ finished) then run_order tasks order' finished s
          else run_order tasks order' (k :: finished) (snd (task s))
      | None => run_order tasks order' finished s
      end
  end.

Definition wait_completion {S : Type} (E : Env) (pool : t S) : M S unit :=
  fun s =>
    let order := pool_order E (worker_count pool) (per_task_timeout pool)
                   (length (pending pool)) in
    (Ret tt, run_order (pending pool) order [] s).
End ThreadPool.

(* ===================================================================== *)
(** ** multithread_request (network.py lines 153-171) *)
(* ===================================================================== *)

(** The bound method [req.send] of the [i]-th object of [m_requests]. *)
Definition bound_send (E : Env) (i : nat) : M (list MRequest.t * World) unit :=
  fun '(m_requests, w) =>
    match m_requests !! i with
    | Some req =>
        let '(o, (req', w')) := MRequest.send E (req, w) in
        (o, (<[i := req']> m_requests, w'))
    | None => (Ret tt, (m_requests, w))
    end.

(** Lines 163-165: [m_requests.append(MRequest(url, config))] per url. *)
Fixpoint build_requests (E : Env) (urls : list string)
    (config : Configuration.t) (m_requests : list MRequest.t)
    : M World (list MRequest.t) :=
  match urls with
  | [] => ret m_requests
  | url :: urls' =>
      (req <- MRequest.init E url (Some config) ;;
       build_requests E urls' config (m_requests ++ [req]))%py
  end.

Definition multithread_request (E : Env) (urls : list string)
    (config : option Configuration.t) : M World (list MRequest.t) :=
  (config <- config_or_default E config ;;
   let num_threads := Configuration.number_threads config in
   let timeout := Configuration.thread_timeout_seconds config in
   let pool := ThreadPool.new num_threads timeout in
   m_requests <- build_requests E urls config [] ;;
   let pool :=
     foldl (fun pool i => ThreadPool.add_task pool (bound_send E i))
       pool (seq 0 (length m_requests)) in
   fun w =>
     let '(o, (m_requests', w')) :=
       ThreadPool.wait_completion E pool (m_requests, w) in
     match o with
     | Ret _ => (Ret m_requests', w')
     | Raise e => (Raise e, w')
     end)%py.

(* ===================================================================== *)
(** ** Predicates used in the statements *)
(* ===================================================================== *)

(** Between two worlds, every cookie dict that existed is either as it was
    or, if it is one of [cs], reduced to its stripped form. *)
Definition only_stripped (cs : list loc) (w w' : World) : Prop :=
  forall (l : loc) (c : cookie),
    heap w !! l = Some c ->
    heap w' !! l = Some c \/ (l ∈ cs /\ heap w' !! l = Some (strip c)).

(** The trace only grows. *)
Definition trace_extends (w w' : World) : Prop :=
  exists evs : list event, trace w' = (trace w ++ evs)%list.

(** The task object built by [MRequest(url, cfg)], with [ro] in its result
    slot. *)
Definition task_of (cfg : Configuration.t) (url : string)
    (ro : option Response.t) : MRequest.t :=
  {| MRequest.url := url;
     MRequest.config := Some cfg;
     MRequest.useragent := Configuration.browser_user_agent cfg;
     MRequest.timeout := Configuration.request_timeout cfg;
     MRequest.proxies := Configuration.proxies cfg;
     MRequest.headers := Configuration.headers cfg;
     MRequest.cookies := Configuration.cookies cfg;
     MRequest.cookies_file := Configuration.cookies_file cfg;
     MRequest.resp := ro |}.

(** What the [except] clause of [MRequest.send] does with an exception
    (lines 149-150). *)
Definition send_handler (e : exn) (s : MRequest.t * World)
    : outcome unit * (MRequest.t * World) :=
  if is_RequestException e
  then (Ret tt, (fst s, emit (Log CRITICAL (MsgRequestFailed e)) (snd s)))
  else (Raise e, s).

(** [create_cookie] takes the record once the filtered attributes are
    gone. *)
Definition accepted (E : Env) (c : cookie) : Prop :=
  exists k : cookie, create_cookie E (strip c) = Ret k.

(** The cookie dicts behind [cs] exist and are accepted. *)
Definition cookies_accepted (E : Env) (cs : list loc) (w : World) : Prop :=
  forall l : loc, l ∈ cs ->
    exists c : cookie, heap w !! l = Some c /\ accepted E c.

(** Whatever the file at [path] yields when it loads is accepted. *)
Definition file_accepted (E : Env) (path : string) : Prop :=
  forall (h : list event) (loaded : list cookie) (c : cookie),
    json_load E h path = Ret loaded -> c ∈ loaded -> accepted E c.



(* ===================================================================== *)
(** ** A concrete environment for running the model *)
(* ===================================================================== *)

Module Example.
Definition bytes (s : string) : list Byte.byte := list_byte_of_string s.

(** Decoding keeps the bytes and names the codec that was used. *)
Definition decode (enc : option string) (b : list Byte.byte) : string :=
  match b with
  | [] => ""
  | _ => default "guess" enc +:+ ":" +:+ string_of_list_byte b
  end.

Definition get_encodings_from_content (s : string) : list string :=
  if contains "charset=shift_jis" s then ["shift_jis"] else [].

Definition page (ctype : option string) (enc : option string)
    (body : string) (status : Z) : Response.t :=
  {| Response.headers :=
       match ctype with
       | Some ct => {[ "content-type" := ct ]}
       | None => ∅
       end;
     Response.encoding := enc;
     Response.content := bytes body;
     Response.status_code := status |}.

Definition ok_page : Response.t :=
  page (Some "text/html; charset=utf-8") (Some "utf-8") "<p>hi</p>" 200.

Definition missing_page : Response.t :=
  page (Some "text/html; charset=utf-8") (Some "utf-8") "gone" 404.

Definition requests_get (h : list event) (url : string)
    (kw : request_kwargs) : outcome Response.t :=
  if decide (url = "http://up/") then Ret ok_page
  else if decide (url = "http://up/missing") then Ret missing_page
  else Raise (RequestException ConnectionError).

Definition raise_for_status (r : Response.t) : outcome unit :=
  if (400 <=? Response.status_code r) && (Response.status_code r <? 600)
  then Raise (RequestException HTTPError) else Ret tt.

Definition session_cookie : cookie :=
  {[ "name" := VStr "sid"; "value" := VStr "42";
     "httpOnly" := VBool true; "domain" := VStr "up" ]}.

Definition json_load (h : list event) (path : string)
    : outcome (list cookie) :=
  if decide (path = "cookies.json") then Ret [session_cookie]
  else Raise OSError.

Definition create_cookie (c : cookie) : outcome cookie :=
  match c !! "name", c !! "value" with
  | Some _, Some _ => Ret c
  | _, _ => Raise TypeError
  end.

Definition config : Configuration.t :=
  {| Configuration.browser_user_agent := "newspaper";
     Configuration.request_timeout := 7;
     Configuration.proxies := ∅;
     Configuration.headers := None;
     Configuration.cookies := [];
     Configuration.cookies_file := "";
     Configuration.http_success_only := true;
     Configuration.ignored_content_types_defaults :=
       {[ "application/pdf" := "[PDF content]" ]};
     Configuration.number_threads := 2;
     Configuration.thread_timeout_seconds := 1 |}.

(** Tasks finish in the reverse of the order of submission. *)
Definition pool_order (n : nat) (timeout : Z) (tasks : nat) : list nat :=
  rev (seq 0 tasks).

Definition env : Env :=
  mkEnv config [] create_cookie requests_get raise_for_status json_load
    decode get_encodings_from_content pool_order.

(** A configuration whose single cookie dict sits at reference 1. *)
Definition config_with_cookie : Configuration.t :=
  Configuration.set_cookies [1%positive] config.

Definition world : World :=
  {| heap := {[ 1%positive := session_cookie ]}; trace := [] |}.

Definition empty_world : World := {| heap := ∅; trace := [] |}.
End Example.
(* ===================================================================== *)
(** ** Properties of the strip rule *)
(* ===================================================================== *)

Lemma strip_attr_delete (c : cookie) (attr : string) :
  strip_attr c attr = delete attr c.
Proof.
  unfold strip_attr. case_decide as Hin; [done|].
  symmetry. apply delete_id. by apply eq_None_not_Some.
Qed.

Lemma lookup_foldl_strip (attrs : list string) (c : cookie) (k : string) :
  foldl strip_attr c attrs !! k =
  if decide (k ∈ attrs) then None else c !! k.
Proof.
  revert c. induction attrs as [|a attrs IH]; intros c.
  - case_decide as Hin; [by apply elem_of_nil in Hin | done].
  - cbn [foldl]. rewrite IH, strip_attr_delete.
    destruct (decide (k ∈ attrs)) as [Hin|Hnin].
    + rewrite decide_True; [done | by apply elem_of_cons; right].
    + destruct (decide (k = a)) as [->|Hne].
      * rewrite lookup_delete_eq, decide_True; [done | by apply elem_of_cons; left].
      * rewrite lookup_delete_ne by done.
        rewrite decide_False; [done|].
        intros [?|?]%elem_of_cons; done.
Qed.

Lemma lookup_strip (c : cookie) (k : string) :
  strip c !! k = if decide (k ∈ FILTERED_ATTR) then None else c !! k.
Proof. apply lookup_foldl_strip. Qed.

Lemma strip_idem (c : cookie) : strip (strip c) = strip c.
Proof.
  apply map_eq. intros k. rewrite !lookup_strip. by case_decide.
Qed.

(** C10.  Applying the attribute-strip rule to a cookie record twice
    yields the same record as applying it once. *)
Theorem strip_twice (c : cookie) : strip (strip c) = strip c.
Proof. apply strip_idem. Qed.

(* ===================================================================== *)
(** ** Properties of the response normaliser *)
(* ===================================================================== *)

Lemma or_empty_not_empty_bytes (h : html) : or_empty h <> Raw [].
Proof. destruct h as [s|[|x b]]; discriminate. Qed.


(** C8.  When the content-type header of the response is a key of
    [ignored_content_types_defaults], the normaliser returns exactly the
    text mapped to that key and leaves the response as it is, whatever the
    body bytes, the encoding and the status are. *)
Theorem ignored_content_type_short_circuit (E : Env)
    (config : Configuration.t) (response : Response.t)
    (ct literal : string) :
  Response.headers response !! "content-type" = Some ct ->
  Configuration.ignored_content_types_defaults config !! ct = Some literal ->
  _get_html_from_response E config response = (Ret (Text literal), response).
Proof.
  intros Hct Hlit. unfold _get_html_from_response.
  rewrite Hct. simpl. by rewrite Hlit.
Qed.

Lemma ignored_content_type_short_circuit_witness :
  _get_html_from_response Example.env Example.config
    (Example.page (Some "application/pdf") (Some FAIL_ENCODING) "%PDF-1.7" 200)
  = (Ret (Text "[PDF content]"),
     Example.page (Some "application/pdf") (Some FAIL_ENCODING) "%PDF-1.7" 200).
Proof.
  apply (ignored_content_type_short_circuit Example.env Example.config _
           "application/pdf" "[PDF content]"); vm_compute; reflexivity.
Defined.

(** With the sentinel encoding and no content-type header, line 106 tests
    ['charset' not in None]: the normaliser raises [TypeError]. *)
Lemma normalizer_raises_without_content_type :
  fst (_get_html_from_response Example.env Example.config
         (Example.page None (Some FAIL_ENCODING) "x" 200))
  = Raise TypeError.
Proof. vm_compute. reflexivity. Qed.







(* ===================================================================== *)
(** ** Basic facts about the store and the trace *)
(* ===================================================================== *)

Lemma trace_extends_refl (w : World) : trace_extends w w.
Proof. exists []. by rewrite app_nil_r. Qed.

Lemma trace_extends_trans (w1 w2 w3 : World) :
  trace_extends w1 w2 -> trace_extends w2 w3 -> trace_extends w1 w3.
Proof.
  intros [evs1 H1] [evs2 H2]. exists (evs1 ++ evs2)%list.
  by rewrite H2, H1, app_assoc.
Qed.

Lemma trace_extends_emit (ev : event) (w : World) : trace_extends w (emit ev w).
Proof. by exists [ev]. Qed.

Lemma trace_extends_elem (ev : event) (w w' : World) :
  trace_extends w w' -> ev ∈ trace w -> ev ∈ trace w'.
Proof. intros [evs ->] Hin. apply elem_of_app. by left. Qed.

Lemma alloc_all_spec (cs : list cookie) (w : World) :
  exists (ls : list loc) (w' : World),
    alloc_all cs w = (Ret ls, w') /\
    trace w' = trace w /\
    heap w ⊆ heap w' /\
    (forall l : loc, l ∈ ls ->
       heap w !! l = None /\
       exists c : cookie, c ∈ cs /\ heap w' !! l = Some c).
Proof.
  revert w. induction cs as [|c cs IH]; intros w.
  - exists [], w. split_and!; try done. intros l Hl. by apply elem_of_nil in Hl.
  - cbn [alloc_all]. unfold bind at 1. unfold alloc at 1.
    set (l0 := fresh (dom (heap w))).
    assert (Hfresh : heap w !! l0 = None).
    { apply not_elem_of_dom. apply is_fresh. }
    destruct (IH (set_heap (<[l0 := c]> (heap w)) w))
      as (ls & w' & Heq & Htr & Hsub & Hls).
    unfold bind at 1. rewrite Heq. unfold ret.
    exists (l0 :: ls), w'. split_and!; try done.
    + etrans; [|exact Hsub]. simpl. by apply insert_subseteq.
    + intros l [->|Hin]%elem_of_cons.
      * split; [done|]. exists c. split; [by left|].
        eapply lookup_weaken; [|exact Hsub]. simpl. apply lookup_insert_eq.
      * destruct (Hls l Hin) as [Hnone (c' & Hc' & Hsome)]. split.
        -- simpl in Hnone. destruct (decide (l0 = l)) as [->|Hne].
           ++ by rewrite lookup_insert_eq in Hnone.
           ++ by rewrite lookup_insert_ne in Hnone.
        -- exists c'. split; [by right|done].
Qed.

Lemma config_or_default_spec (E : Env) (config : option Configuration.t)
    (w : World) :
  exists (cfg : Configuration.t) (w0 : World),
    config_or_default E config w = (Ret cfg, w0) /\
    trace w0 = trace w /\
    heap w ⊆ heap w0 /\
    (forall c : Configuration.t, config = Some c -> cfg = c /\ w0 = w).
Proof.
  destruct config as [c|]; simpl.
  - exists c, w. split_and!; try done. intros c' [= <-]. done.
  - unfold Configuration_new, bind.
    destruct (alloc_all_spec (new_Configuration_cookies E) w)
      as (ls & w' & -> & Htr & Hsub & _).
    eexists _, w'. split_and!; try done.
Qed.

Lemma open_json_load_spec (E : Env) (path : string) (w : World) :
  match json_load E (trace w) path with
  | Ret cs =>
      exists (ls : list loc) (w' : World),
        open_json_load E path w = (Ret ls, w') /\
        alloc_all cs (emit (Open path) w) = (Ret ls, w')
  | Raise e => open_json_load E path w = (Raise e, emit (Open path) w)
  end.
Proof.
  unfold open_json_load, bind.
  destruct (json_load E (trace w) path) as [cs|e]; [|done].
  destruct (alloc_all_spec cs (emit (Open path) w)) as (ls & w' & Heq & _).
  exists ls, w'. by rewrite Heq.
Qed.

(** Lines 71-79 never raise, open no connection and hand back either the
    configured cookie list or dicts that did not exist before. *)
Lemma load_cookies_2XX_spec (E : Env) (cfg : Configuration.t) (w : World) :
  exists (cs : list loc) (w' : World),
    load_cookies_2XX E cfg w = (Ret cs, w') /\
    trace_extends w w' /\
    filter is_Get (trace w') = filter is_Get (trace w) /\
    heap w ⊆ heap w' /\
    (cs = Configuration.cookies cfg \/
     forall l : loc, l ∈ cs -> heap w !! l = None /\ is_Some (heap w' !! l)).
Proof.
  unfold load_cookies_2XX. case_decide as Hfile.
  2: { exists (Configuration.cookies cfg), w.
       split_and!; try done; [apply trace_extends_refl | by left]. }
  unfold bind at 1. unfold log at 1. unfold try_except.
  set (w1 := emit (Log INFO MsgLoadingCookieFile) w).
  pose proof (open_json_load_spec E (Configuration.cookies_file cfg) w1) as Hload.
  destruct (json_load E (trace w1) (Configuration.cookies_file cfg)) as [cs|e].
  - destruct Hload as (ls & w' & -> & Halloc).
    destruct (alloc_all_spec cs (emit (Open (Configuration.cookies_file cfg)) w1))
      as (ls' & w'' & Heq & Htr & Hsub & Hls).
    rewrite Halloc in Heq. injection Heq as <- <-.
    exists ls, w'. split_and!; try done.
    + exists [Log INFO MsgLoadingCookieFile; Open (Configuration.cookies_file cfg)].
      rewrite Htr. simpl. by rewrite <- app_assoc.
    + rewrite Htr. simpl. rewrite !filter_app. simpl. by rewrite !app_nil_r.
    + right. intros l Hl. destruct (Hls l Hl) as [? (c & _ & ?)].
      split; [done | by exists c].
  - rewrite Hload. cbn [is_Exception]. unfold bind, log, ret.
    eexists _, _. split_and!; [done| | |done|by left].
    + eexists [_; _; _]. simpl. by rewrite <- !app_assoc.
    + simpl. rewrite !filter_app. simpl. by rewrite !app_nil_r.
Qed.

(* ===================================================================== *)
(** ** Properties of the single-fetch entry points *)
(* ===================================================================== *)

Lemma normalizer_raises_only_TypeError (E : Env) (cfg : Configuration.t)
    (response : Response.t) (e : exn) :
  fst (_get_html_from_response E cfg response) = Raise e -> e = TypeError.
Proof.
  unfold _get_html_from_response.
  repeat (case_match; simpl); try discriminate. by intros [= <-].
Qed.

(** C9.  With a response supplied by the caller, [get_html_2XX_only]
    returns what the normaliser returns for that response under the
    effective configuration, adds no request to the trace, and raises no
    request exception, whatever [http_success_only] and the status are. *)
Theorem presupplied_response_is_only_normalized (E : Env) (url : string)
    (config : option Configuration.t) (response : Response.t) (w : World) :
  exists (cfg : Configuration.t) (w0 w' : World),
    config_or_default E config w = (Ret cfg, w0) /\
    get_html_2XX_only E url config (Some response) w =
      (fst (_get_html_from_response E cfg response), w') /\
    filter is_Get (trace w') = filter is_Get (trace w) /\
    (forall e : request_exception,
       fst (get_html_2XX_only E url config (Some response) w) <>
       Raise (RequestException e)).
Proof.
  destruct (config_or_default_spec E config w) as (cfg & w0 & Hcfg & Htr0 & _).
  destruct (load_cookies_2XX_spec E cfg w0) as (cs & w1 & Hload & _ & Hget & _).
  assert (Heq : get_html_2XX_only E url config (Some response) w =
                (fst (_get_html_from_response E cfg response), w1)).
  { unfold get_html_2XX_only, bind. by rewrite Hcfg, Hload. }
  exists cfg, w0, w1. split_and!; try done.
  - by rewrite Hget, Htr0.
  - intros e. rewrite Heq. simpl. intros Hr.
    by apply normalizer_raises_only_TypeError in Hr.
Qed.

(** The task object [MRequest(url, config)] for a given configuration. *)
Lemma init_with_config (E : Env) (url : string) (cfg : Configuration.t)
    (w : World) :
  MRequest.init E url (Some cfg) w = (Ret (task_of cfg url None), w).
Proof. reflexivity. Qed.

(** C7.  With a non-empty [cookies_file], both [get_html_2XX_only] and
    [MRequest.send] log the attempt and open the file.  If loading fails
    with any exception, the failure is logged as an error and the call goes
    on with [config.cookies], exactly as the rest of the function would
    with that list: the exception of the load is not raised.  If loading
    succeeds, the call goes on with the loaded records. *)
Theorem cookie_file_failure_falls_back (E : Env) (url : string)
    (cfg : Configuration.t) (response : option Response.t) (w : World) :
  Configuration.cookies_file cfg <> "" ->
  let path := Configuration.cookies_file cfg in
  let w1 := emit (Open path) (emit (Log INFO MsgLoadingCookieFile) w) in
  exists self : MRequest.t,
    MRequest.init E url (Some cfg) w = (Ret self, w) /\
    match json_load E (trace w ++ [Log INFO MsgLoadingCookieFile]) path with
    | Raise e =>
        let w2 := emit (Log ERROR (MsgFailedLoading path e)) w1 in
        get_html_2XX_only E url (Some cfg) response w =
          fetch_2XX E url cfg (Configuration.cookies cfg) response w2 /\
        MRequest.send E (self, w) =
          MRequest.send_with E (Configuration.cookies cfg) (self, w2)
    | Ret cs =>
        exists (ls : list loc) (w2 : World),
          alloc_all cs w1 = (Ret ls, w2) /\
          get_html_2XX_only E url (Some cfg) response w =
            fetch_2XX E url cfg ls response w2 /\
          MRequest.send E (self, w) = MRequest.send_with E ls (self, w2)
    end.
Proof.
  intros Hfile path w1. subst path w1.
  exists (task_of cfg url None). split; [apply init_with_config|].
  pose proof (open_json_load_spec E (Configuration.cookies_file cfg)
                (emit (Log INFO MsgLoadingCookieFile) w)) as Hload.
  change (trace (emit (Log INFO MsgLoadingCookieFile) w))
    with (trace w ++ [Log INFO MsgLoadingCookieFile])%list in Hload.
  unfold get_html_2XX_only, MRequest.send, MRequest.load_cookies_send,
    load_cookies_2XX.
  unfold bind, ret, log, on_world, try_except.
  cbn [config_or_default fst snd MRequest.cookies_file MRequest.cookies
       task_of].
  unfold ret.
  destruct (decide (Configuration.cookies_file cfg <> "")) as [_|Hn]; [|done].
  destruct (json_load E (trace w ++ [Log INFO MsgLoadingCookieFile])%list
              (Configuration.cookies_file cfg)) as [cs|e].
  - destruct Hload as (ls & w2 & Hopen & Halloc).
    exists ls, w2. split; [done|]. by rewrite Hopen.
  - by rewrite Hload.
Qed.

(** The file named by the configuration cannot be read: the fetch and the
    task go on with the configured cookie list. *)
Lemma cookie_file_failure_falls_back_witness :
  let cfg :=
    {| Configuration.browser_user_agent := "newspaper";
       Configuration.request_timeout := 7;
       Configuration.proxies := ∅;
       Configuration.headers := None;
       Configuration.cookies := [1%positive];
       Configuration.cookies_file := "missing.json";
       Configuration.http_success_only := true;
       Configuration.ignored_content_types_defaults := ∅;
       Configuration.number_threads := 2;
       Configuration.thread_timeout_seconds := 1 |} in
  let w2 :=
    emit (Log ERROR (MsgFailedLoading "missing.json" OSError))
      (emit (Open "missing.json")
         (emit (Log INFO MsgLoadingCookieFile) Example.world)) in
  exists self : MRequest.t,
    MRequest.init Example.env "http://up/" (Some cfg) Example.world =
      (Ret self, Example.world) /\
    get_html_2XX_only Example.env "http://up/" (Some cfg) None Example.world =
      fetch_2XX Example.env "http://up/" cfg [1%positive] None w2 /\
    MRequest.send Example.env (self, Example.world) =
      MRequest.send_with Example.env [1%positive] (self, w2).
Proof.
  intros cfg w2.
  exact (cookie_file_failure_falls_back Example.env "http://up/" cfg None
           Example.world ltac:(discriminate)).
Defined.

(* ===================================================================== *)
(** ** Frame lemmas: what a fetch does to the cookie dicts *)
(* ===================================================================== *)

Lemma only_stripped_refl (cs : list loc) (w : World) : only_stripped cs w w.
Proof. intros l c Hl. by left. Qed.

Lemma only_stripped_trans (cs : list loc) (w1 w2 w3 : World) :
  only_stripped cs w1 w2 -> only_stripped cs w2 w3 -> only_stripped cs w1 w3.
Proof.
  intros H12 H23 l c Hl.
  destruct (H12 l c Hl) as [Hsame|[Hin Hstr]].
  - by apply H23.
  - right. split; [done|].
    destruct (H23 l (strip c) Hstr) as [Hsame|[_ Hstr']]; [done|].
    by rewrite strip_idem in Hstr'.
Qed.

Lemma only_stripped_same_heap (cs : list loc) (w w' : World) :
  heap w' = heap w -> only_stripped cs w w'.
Proof. intros Heq l c Hl. left. by rewrite Heq. Qed.

(** Cookie dicts created after [w] do not count: stripping them leaves
    the dicts of [w] alone. *)
Lemma only_stripped_fresh (cfgcs cs : list loc) (w w1 w' : World) :
  heap w ⊆ heap w1 ->
  cs = cfgcs \/ (forall l : loc, l ∈ cs -> heap w !! l = None) ->
  only_stripped cs w1 w' ->
  only_stripped cfgcs w w'.
Proof.
  intros Hsub Hcs Hstr l c Hl.
  assert (Hl1 : heap w1 !! l = Some c) by (by eapply lookup_weaken).
  destruct (Hstr l c Hl1) as [Hsame|[Hin Hs]]; [by left|].
  destruct Hcs as [->|Hfresh]; [by right|].
  specialize (Hfresh l Hin). congruence.
Qed.

Lemma fill_jar_frame (E : Env) (cs : list loc) (jar : list cookie)
    (w : World) (o : outcome (list cookie)) (w' : World) :
  fill_jar E cs jar w = (o, w') ->
  trace w' = trace w /\
  dom (heap w') = dom (heap w) /\
  only_stripped cs w w'.
Proof.
  revert jar w. induction cs as [|l cs IH]; intros jar w Hrun.
  { injection Hrun as <- <-. split_and!; try done. apply only_stripped_refl. }
  cbn [fill_jar] in Hrun. unfold bind at 1 in Hrun. unfold deref at 1 in Hrun.
  destruct (heap w !! l) as [c|] eqn:Hl.
  2: { injection Hrun as <- <-. split_and!; try done. apply only_stripped_refl. }
  unfold bind at 1 in Hrun. unfold store at 1 in Hrun.
  set (w1 := set_heap (<[l := strip c]> (heap w)) w) in Hrun.
  assert (Hdom1 : dom (heap w1) = dom (heap w)).
  { simpl. apply dom_insert_lookup_L. by eexists. }
  assert (Hstr1 : only_stripped (l :: cs) w w1).
  { intros l' c' Hl'. simpl. destruct (decide (l = l')) as [<-|Hne].
    - right. rewrite lookup_insert_eq. split; [by left|]. congruence.
    - left. by rewrite lookup_insert_ne. }
  unfold bind at 1 in Hrun. unfold deref at 1 in Hrun.
  assert (Hl1 : heap w1 !! l = Some (strip c)) by apply lookup_insert_eq.
  rewrite Hl1 in Hrun. unfold bind at 1 in Hrun.
  unfold lift_outcome at 1 in Hrun.
  destruct (create_cookie E (strip c)) as [k|e].
  2: { injection Hrun as <- <-. by split_and!. }
  destruct (IH _ _ Hrun) as (Htr & Hdom & Hstr).
  split_and!.
  - by rewrite Htr.
  - by rewrite Hdom.
  - eapply only_stripped_trans; [exact Hstr1|].
    intros l' c' Hl'. destruct (Hstr l' c' Hl') as [?|[Hin ?]]; [by left|].
    right. split; [by right|done].
Qed.

Lemma fill_jar_success (E : Env) (cs : list loc) (jar : list cookie)
    (w : World) :
  (forall l : loc, l ∈ cs ->
     exists c : cookie, heap w !! l = Some c /\ accepted E c) ->
  exists jar' : list cookie, fst (fill_jar E cs jar w) = Ret jar'.
Proof.
  revert jar w. induction cs as [|l cs IH]; intros jar w Hall.
  { by exists jar. }
  cbn [fill_jar]. unfold bind at 1. unfold deref at 1.
  destruct (Hall l) as (c & Hl & [k Hk]); [by left|]. rewrite Hl.
  unfold bind at 1. unfold store at 1.
  unfold bind at 1. unfold deref at 1. cbn [heap set_heap].
  rewrite lookup_insert_eq.
  unfold bind at 1. unfold lift_outcome at 1. rewrite Hk.
  apply IH. intros l' Hin. cbn [heap set_heap].
  destruct (decide (l = l')) as [<-|Hne].
  - rewrite lookup_insert_eq. exists (strip c). split; [done|].
    exists k. by rewrite strip_idem.
  - rewrite lookup_insert_ne by done. apply Hall. by right.
Qed.

Lemma get_request_kwargs_frame (E : Env) (timeout : Z) (useragent : string)
    (proxies : gmap string string) (headers : option (gmap string string))
    (cs : list loc) (w : World) (o : outcome request_kwargs) (w' : World) :
  get_request_kwargs E timeout useragent proxies headers cs w = (o, w') ->
  trace w' = trace w /\
  dom (heap w') = dom (heap w) /\
  only_stripped cs w w'.
Proof.
  unfold get_request_kwargs, bind. intros Hrun.
  destruct (fill_jar E cs [] w) as [[jar|e] w1] eqn:Hf;
    injection Hrun as <- <-; by eapply fill_jar_frame.
Qed.

Lemma get_request_kwargs_success (E : Env) (timeout : Z) (useragent : string)
    (proxies : gmap string string) (headers : option (gmap string string))
    (cs : list loc) (w : World) :
  (forall l : loc, l ∈ cs ->
     exists c : cookie, heap w !! l = Some c /\ accepted E c) ->
  exists kw : request_kwargs,
    fst (get_request_kwargs E timeout useragent proxies headers cs w) = Ret kw.
Proof.
  intros Hall. unfold get_request_kwargs, bind.
  destruct (fill_jar_success E cs [] w Hall) as [jar Hjar].
  destruct (fill_jar E cs [] w) as [[jar'|e] w']; simpl in Hjar; [|done].
  by eexists.
Qed.

(** Lines 134-142 never raise either. *)
Lemma load_cookies_send_spec (E : Env) (self : MRequest.t) (w : World) :
  exists (cs : list loc) (w' : World),
    MRequest.load_cookies_send E self w = (Ret cs, w') /\
    trace_extends w w' /\
    heap w ⊆ heap w' /\
    (cs = MRequest.cookies self \/
     exists (h : list event) (loaded : list cookie),
       json_load E h (MRequest.cookies_file self) = Ret loaded /\
       forall l : loc, l ∈ cs ->
         heap w !! l = None /\
         exists c : cookie, c ∈ loaded /\ heap w' !! l = Some c).
Proof.
  unfold MRequest.load_cookies_send. unfold bind at 1.
  assert (Hlog : exists w0,
            (if decide (MRequest.cookies_file self <> "")
             then log INFO MsgLoadingCookieFile else ret tt) w = (Ret tt, w0) /\
            trace_extends w w0 /\ heap w0 = heap w).
  { case_decide.
    - eexists. split; [done|]. split; [apply trace_extends_emit | done].
    - eexists. split; [done|]. split; [apply trace_extends_refl | done]. }
  destruct Hlog as (w0 & -> & Hext0 & Hheap0).
  unfold try_except.
  pose proof (open_json_load_spec E (MRequest.cookies_file self) w0) as Hload.
  destruct (json_load E (trace w0) (MRequest.cookies_file self))
    as [cs|e] eqn:Hjson.
  - destruct Hload as (ls & w' & -> & Halloc).
    destruct (alloc_all_spec cs (emit (Open (MRequest.cookies_file self)) w0))
      as (ls' & w'' & Heq & Htr & Hsub & Hls).
    rewrite Halloc in Heq. injection Heq as <- <-.
    exists ls, w'. split_and!; try done.
    + eapply trace_extends_trans; [exact Hext0|].
      exists [Open (MRequest.cookies_file self)]. by rewrite Htr.
    + by rewrite <- Hheap0.
    + right. exists (trace w0), cs. split; [done|].
      intros l Hl. rewrite <- Hheap0. by apply Hls.
  - rewrite Hload. cbn [is_Exception]. unfold bind, log, ret.
    eexists _, _. split_and!; [done| | |by left].
    + eapply trace_extends_trans; [exact Hext0|].
      eexists [_; _]. simpl. by rewrite <- !app_assoc.
    + simpl. by rewrite Hheap0.
Qed.

(** The complete case analysis of lines 144-150. *)
Lemma send_with_cases (E : Env) (cs : list loc) (self : MRequest.t)
    (w : World) :
  MRequest.send_with E cs (self, w) =
  match get_request_kwargs E (MRequest.timeout self) (MRequest.useragent self)
          (MRequest.proxies self) (MRequest.headers self) cs w with
  | (Raise e, w2) => send_handler e (self, w2)
  | (Ret kw, w2) =>
      let w3 := emit (Get (MRequest.url self) kw) w2 in
      match requests_get E (trace w2) (MRequest.url self) kw with
      | Raise e => send_handler e (self, w3)
      | Ret r =>
          let self' := MRequest.set_resp (Some r) self in
          match MRequest.config self with
          | None => (Raise AttributeError, (self', w3))
          | Some c =>
              if Configuration.http_success_only c then
                match raise_for_status E r with
                | Ret _ => (Ret tt, (self', w3))
                | Raise e => send_handler e (self', w3)
                end
              else (Ret tt, (self', w3))
          end
      end
  end.
Proof.
  unfold MRequest.send_with, try_except, bind, on_world, get, send_handler,
    lift_outcome, raise, ret, log.
  cbn [fst snd].
  destruct (get_request_kwargs _ _ _ _ _ _ _) as [[kw|e] w2]; [|done].
  destruct (requests_get E (trace w2) (MRequest.url self) kw) as [r|e]; [|done].
  cbn [fst snd MRequest.config MRequest.set_resp MRequest.resp].
  destruct (MRequest.config self) as [c|]; [|done].
  destruct (Configuration.http_success_only c); [|done].
  by destruct (raise_for_status E r) as [[]|e].
Qed.

Lemma send_handler_shape (e : exn) (self : MRequest.t) (w : World) :
  exists (o : outcome unit) (w' : World),
    send_handler e (self, w) = (o, (self, w')) /\
    trace_extends w w' /\ heap w' = heap w /\
    (forall e' : request_exception, o <> Raise (RequestException e')).
Proof.
  unfold send_handler. destruct (is_RequestException e) eqn:He.
  - eexists _, _. split_and!; [done|apply trace_extends_emit|done|done].
  - eexists _, _. split_and!; [done|apply trace_extends_refl|done|].
    intros e' [= ->]. done.
Qed.

(** [send_with] touches nothing of the task but its result slot, extends
    the trace, strips at most the cookies it was given, and lets no request
    exception out. *)
Lemma send_with_shape (E : Env) (cs : list loc) (self : MRequest.t)
    (w : World) :
  exists (o : outcome unit) (ro : option Response.t) (w' : World),
    MRequest.send_with E cs (self, w) = (o, (MRequest.set_resp ro self, w')) /\
    (ro = MRequest.resp self \/ is_Some ro) /\
    trace_extends w w' /\
    dom (heap w') = dom (heap w) /\
    only_stripped cs w w' /\
    (forall e' : request_exception, o <> Raise (RequestException e')).
Proof.
  rewrite send_with_cases.
  destruct (get_request_kwargs _ _ _ _ _ _ _) as [okw w2] eqn:Hkw.
  apply get_request_kwargs_frame in Hkw as (Htr & Hdom & Hstr).
  assert (Hext2 : trace_extends w w2).
  { exists []. by rewrite app_nil_r. }
  assert (Hself : MRequest.set_resp (MRequest.resp self) self = self)
    by (by destruct self).
  assert (Hhandler : forall e (self1 : MRequest.t) (ro : option Response.t)
            (w1 : World),
            self1 = MRequest.set_resp ro self ->
            ro = MRequest.resp self \/ is_Some ro ->
            trace_extends w w1 -> heap w1 = heap w2 ->
            exists o ro' w',
              send_handler e (self1, w1) = (o, (MRequest.set_resp ro' self, w')) /\
              (ro' = MRequest.resp self \/ is_Some ro') /\
              trace_extends w w' /\ dom (heap w') = dom (heap w) /\
              only_stripped cs w w' /\
              (forall e' : request_exception, o <> Raise (RequestException e'))).
  { intros e self1 ro w1 -> Hro Hext Hheap.
    destruct (send_handler_shape e (MRequest.set_resp ro self) w1)
      as (o & w' & -> & Hext' & Hheap' & Hno).
    exists o, ro, w'. split_and!; try done.
    - by eapply trace_extends_trans.
    - by rewrite Hheap', Hheap.
    - eapply only_stripped_trans; [exact Hstr|].
      apply only_stripped_same_heap. by rewrite Hheap', Hheap. }
  destruct okw as [kw|e].
  2: { apply (Hhandler e self (MRequest.resp self) w2); auto. }
  cbv zeta.
  assert (Hext3 : trace_extends w (emit (Get (MRequest.url self) kw) w2)).
  { eapply trace_extends_trans; [exact Hext2 | apply trace_extends_emit]. }
  destruct (requests_get E (trace w2) (MRequest.url self) kw) as [r|e].
  2: { apply (Hhandler e self (MRequest.resp self)); auto. }
  assert (Hdone : exists o ro' w',
            (Ret tt, (MRequest.set_resp (Some r) self,
                      emit (Get (MRequest.url self) kw) w2)) =
            (o, (MRequest.set_resp ro' self, w')) /\
            (ro' = MRequest.resp self \/ is_Some ro') /\
            trace_extends w w' /\ dom (heap w') = dom (heap w) /\
            only_stripped cs w w' /\
            (forall e' : request_exception, o <> Raise (RequestException e'))).
  { eexists _, (Some r), _. split_and!; try done. right. by eexists. }
  destruct (MRequest.config self) as [c|].
  2: { eexists _, (Some r), _. split_and!; try done. right. by eexists. }
  destruct (Configuration.http_success_only c); [|exact Hdone].
  destruct (raise_for_status E r) as [[]|e]; [exact Hdone|].
  apply (Hhandler e _ (Some r)); auto.
Qed.

(** [send] as a whole: same shape, and only the cookies of the task may
    be stripped among the dicts that existed before. *)
Lemma send_shape (E : Env) (self : MRequest.t) (w : World) :
  exists (o : outcome unit) (ro : option Response.t) (w' : World),
    MRequest.send E (self, w) = (o, (MRequest.set_resp ro self, w')) /\
    (ro = MRequest.resp self \/ is_Some ro) /\
    trace_extends w w' /\
    dom (heap w) ⊆ dom (heap w') /\
    only_stripped (MRequest.cookies self) w w' /\
    (forall e' : request_exception, o <> Raise (RequestException e')).
Proof.
  unfold MRequest.send, bind, on_world. cbn [fst snd].
  destruct (load_cookies_send_spec E self w)
    as (cs & w1 & -> & Hext1 & Hsub & Hcs).
  destruct (send_with_shape E cs self w1)
    as (o & ro & w' & -> & Hro & Hext & Hdom & Hstr & Hno).
  exists o, ro, w'. split_and!; try done.
  - by eapply trace_extends_trans.
  - rewrite Hdom. by apply subseteq_dom.
  - eapply only_stripped_fresh; [exact Hsub| |exact Hstr].
    destruct Hcs as [->|(h & loaded & _ & Hfresh)]; [by left|].
    right. intros l Hl. by apply Hfresh.
Qed.

(* ===================================================================== *)
(** ** The thread pool and the batch *)
(* ===================================================================== *)

Lemma pending_foldl_add_task {S : Type} (f : nat -> M S unit)
    (pool : ThreadPool.t S) (ks : list nat) :
  let pool' := foldl (fun p i => ThreadPool.add_task p (f i)) pool ks in
  ThreadPool.pending pool' = (ThreadPool.pending pool ++ map f ks)%list /\
  ThreadPool.worker_count pool' = ThreadPool.worker_count pool /\
  ThreadPool.per_task_timeout pool' = ThreadPool.per_task_timeout pool.
Proof.
  revert pool. induction ks as [|k ks IH]; intros pool; simpl.
  - by rewrite app_nil_r.
  - destruct (IH (ThreadPool.add_task pool (f k))) as (-> & -> & ->).
    simpl. by rewrite <- app_assoc.
Qed.

(** An invariant indexed by the tasks taken so far survives the pool, and
    at the end every task named in the order has been taken. *)
Lemma run_order_invariant {S : Type} (P : list nat -> S -> Prop)
    (tasks : list (M S unit)) (order finished : list nat) (s : S) :
  (forall (k : nat) (task : M S unit) (fin : list nat) (s0 : S),
     tasks !! k = Some task -> k ∉ fin -> P fin s0 ->
     P (k :: fin) (snd (task s0))) ->
  P finished s ->
  exists fin' : list nat,
    P fin' (ThreadPool.run_order tasks order finished s) /\
    (forall k : nat, k ∈ finished -> k ∈ fin') /\
    (forall k : nat, k ∈ order -> (k < length tasks)%nat -> k ∈ fin').
Proof.
  intros Hstep. revert finished s.
  induction order as [|k order IH]; intros finished s HP.
  { exists finished. split_and!; try done.
    intros k Hk. by apply elem_of_nil in Hk. }
  cbn [ThreadPool.run_order].
  destruct (tasks !! k) as [task|] eqn:Hk.
  - case_decide as Hfin.
    + destruct (IH finished s HP) as (fin' & HP' & Hold & Hnew).
      exists fin'. split_and!; try done.
      intros k' [->|Hin]%elem_of_cons Hlt; [by apply Hold | by apply Hnew].
    + destruct (IH (k :: finished) (snd (task s))) as (fin' & HP' & Hold & Hnew).
      { by eapply Hstep. }
      exists fin'. split_and!; try done.
      * intros k' Hk'. apply Hold. by right.
      * intros k' [->|Hin]%elem_of_cons Hlt; [apply Hold; by left | by apply Hnew].
  - destruct (IH finished s HP) as (fin' & HP' & Hold & Hnew).
    exists fin'. split_and!; try done.
    intros k' [->|Hin]%elem_of_cons Hlt; [|by apply Hnew].
    apply lookup_ge_None in Hk. exfalso.
    exact (Nat.lt_irrefl _ (Nat.lt_le_trans _ _ _ Hlt Hk)).
Qed.

Lemma build_requests_spec (E : Env) (urls : list string)
    (cfg : Configuration.t) (acc : list MRequest.t) (w : World) :
  build_requests E urls cfg acc w =
  (Ret (acc ++ map (fun u => task_of cfg u None) urls)%list, w).
Proof.
  revert acc. induction urls as [|u urls IH]; intros acc.
  - simpl. unfold ret. by rewrite app_nil_r.
  - cbn [build_requests]. unfold bind. rewrite init_with_config.
    rewrite IH. simpl. by rewrite <- app_assoc.
Qed.

(** The batch is the pool run over the bound [send] methods of the tasks
    built from the urls. *)
Lemma multithread_request_unfold (E : Env) (urls : list string)
    (config : option Configuration.t) (w : World) :
  exists (cfg : Configuration.t) (w0 : World),
    config_or_default E config w = (Ret cfg, w0) /\
    let reqs0 := map (fun u => task_of cfg u None) urls in
    let s' :=
      ThreadPool.run_order (map (bound_send E) (seq 0 (length urls)))
        (pool_order E (Configuration.number_threads cfg)
           (Configuration.thread_timeout_seconds cfg) (length urls))
        [] (reqs0, w0) in
    multithread_request E urls config w = (Ret (fst s'), snd s').
Proof.
  destruct (config_or_default_spec E config w) as (cfg & w0 & Hcfg & _).
  exists cfg, w0. split; [done|]. cbv zeta.
  unfold multithread_request. unfold bind at 1. rewrite Hcfg.
  unfold bind at 1. rewrite build_requests_spec. cbn [app].
  unfold ThreadPool.wait_completion.
  destruct (pending_foldl_add_task (bound_send E)
              (ThreadPool.new (Configuration.number_threads cfg)
                 (Configuration.thread_timeout_seconds cfg))
              (seq 0 (length (map (fun u => task_of cfg u None) urls))))
    as (-> & -> & ->).
  cbn [ThreadPool.new ThreadPool.pending ThreadPool.worker_count
       ThreadPool.per_task_timeout app].
  rewrite !length_map, !length_seq.
  by destruct (ThreadPool.run_order _ _ _ _) as [reqs' w'].
Qed.

Lemma bound_send_lookup (E : Env) (n k : nat)
    (task : M (list MRequest.t * World) unit) :
  map (bound_send E) (seq 0 n) !! k = Some task ->
  task = bound_send E k /\ (k < n)%nat.
Proof.
  intros Hk. rewrite list_lookup_fmap in Hk.
  destruct (seq 0 n !! k) as [i|] eqn:Hi; [|done].
  apply lookup_seq in Hi as [-> Hlt]. simpl in Hk. by injection Hk as <-.
Qed.

(** C1.  For every list of urls, with or without a configuration, and
    whatever order the pool runs the tasks in, [multithread_request]
    returns one task per url, and the urls of the returned tasks, read in
    order, are the input list. *)
Theorem multithread_request_preserves_urls (E : Env) (urls : list string)
    (config : option Configuration.t) (w : World) :
  exists (reqs : list MRequest.t) (w' : World),
    multithread_request E urls config w = (Ret reqs, w') /\
    map MRequest.url reqs = urls /\
    length reqs = length urls.
Proof.
  destruct (multithread_request_unfold E urls config w)
    as (cfg & w0 & _ & Heq).
  cbv zeta in Heq. rewrite Heq. eexists _, _. split; [done|].
  set (P := fun (_ : list nat) (s : list MRequest.t * World) =>
              map MRequest.url (fst s) = urls).
  destruct (run_order_invariant P
              (map (bound_send E) (seq 0 (length urls)))
              (pool_order E (Configuration.number_threads cfg)
                 (Configuration.thread_timeout_seconds cfg) (length urls))
              [] (map (fun u => task_of cfg u None) urls, w0))
    as (fin & HP & _).
  - intros k task fin [reqs w1] Hk _ HP.
    apply bound_send_lookup in Hk as [-> _].
    unfold P in *. cbn [fst] in HP. unfold bound_send.
    destruct (reqs !! k) as [req|] eqn:Hreq; [|done].
    destruct (send_shape E req w1) as (o & ro & w' & -> & _).
    cbn [fst snd]. rewrite list_fmap_insert.
    rewrite list_insert_id; [done|].
    rewrite list_lookup_fmap, Hreq. by destruct req.
  - unfold P. cbn [fst]. rewrite map_map. cbn [task_of MRequest.url].
    apply map_id.
  - unfold P in HP. split; [done|].
    apply (f_equal length) in HP. by rewrite length_map in HP.
Qed.

(* ===================================================================== *)
(** ** The configuration's cookie dicts during a fetch *)
(* ===================================================================== *)

Lemma fetch_2XX_frame (E : Env) (url : string) (cfg : Configuration.t)
    (cs : list loc) (response : option Response.t) (w : World) :
  only_stripped cs w (snd (fetch_2XX E url cfg cs response w)).
Proof.
  unfold fetch_2XX. destruct response as [r|].
  { apply only_stripped_refl. }
  unfold bind at 1.
  destruct (get_request_kwargs _ _ _ _ _ _ _) as [okw w2] eqn:Hkw.
  apply get_request_kwargs_frame in Hkw as (_ & _ & Hstr).
  destruct okw as [kw|e]; [|done].
  unfold bind at 1. unfold get at 1.
  destruct (requests_get E (trace w2) url kw) as [r|e]; [|done].
  destruct (_get_html_from_response E cfg r) as [[h|e] r'];
    unfold bind, lift_outcome, ret; [|done].
  destruct (Configuration.http_success_only cfg); [|done].
  by destruct (raise_for_status E r') as [[]|e].
Qed.






Lemma elem_of_emit (ev : event) (w : World) : ev ∈ trace (emit ev w).
Proof. simpl. apply elem_of_app. right. by left. Qed.

(* ===================================================================== *)
(** ** The status check in a batch *)
(* ===================================================================== *)

(** C2.  The code at the failing input: a batch over one url that is
    answered with status 404, with [http_success_only] set.  The status
    check raises [HTTPError] and the failure is logged as critical, but the
    task that comes back holds the 404 response in its result slot; the
    slot is not left empty. *)
Theorem non_2XX_response_stays_in_resp :
  exists w' : World,
    multithread_request Example.env ["http://up/missing"]
      (Some Example.config) Example.empty_world
    = (Ret [task_of Example.config "http://up/missing"
              (Some Example.missing_page)], w') /\
    Configuration.http_success_only Example.config = true /\
    raise_for_status Example.env Example.missing_page =
      Raise (RequestException HTTPError) /\
    Log CRITICAL (MsgRequestFailed (RequestException HTTPError)) ∈ trace w'.
Proof.
  exists (snd (multithread_request Example.env ["http://up/missing"]
                 (Some Example.config) Example.empty_world)).
  split_and!.
  - vm_compute. reflexivity.
  - reflexivity.
  - vm_compute. reflexivity.
  - vm_compute. repeat constructor.
Qed.

(* ===================================================================== *)
(** ** More on the strip rule *)
(* ===================================================================== *)

(** The strip rule only removes: the stripped record is contained in the
    record, its keys are the keys outside [FILTERED_ATTR], and a record is
    left as it is exactly when it has none of the filtered attributes. *)
Theorem strip_removes_exactly_filtered (c : cookie) :
  strip c ⊆ c /\
  (forall k : string,
     is_Some (strip c !! k) <-> is_Some (c !! k) /\ k ∉ FILTERED_ATTR) /\
  (strip c = c <-> forall k : string, k ∈ FILTERED_ATTR -> c !! k = None).
Proof.
  split_and!.
  - apply map_subseteq_spec. intros k v. rewrite lookup_strip.
    by case_decide.
  - intros k. rewrite lookup_strip. case_decide as Hk; split.
    + by intros [? ?].
    + by intros [_ ?].
    + by intros ?.
    + by intros [? _].
  - split.
    + intros Heq k Hk. rewrite <- Heq, lookup_strip. by rewrite decide_True.
    + intros Hnone. apply map_eq. intros k. rewrite lookup_strip.
      case_decide as Hk; [|done]. symmetry. by apply Hnone.
Qed.

(* ===================================================================== *)
(** ** More on the response normaliser *)
(* ===================================================================== *)

Lemma set_encoding_same (r : Response.t) :
  Response.set_encoding (Response.encoding r) r = r.
Proof. by destruct r. Qed.

(** The normaliser writes nothing but [response.encoding]: headers, body
    and status stay as they were, and the encoding is either left alone or,
    when it was the sentinel, set to the first encoding declared in the
    body text. *)
Theorem normalizer_writes_only_encoding (E : Env) (config : Configuration.t)
    (response : Response.t) :
  let response' := snd (_get_html_from_response E config response) in
  Response.headers response' = Response.headers response /\
  Response.content response' = Response.content response /\
  Response.status_code response' = Response.status_code response /\
  (response' = response \/
   (Response.encoding response = Some FAIL_ENCODING /\
    exists (enc : string) (encs : list string),
      get_encodings_from_content E (text E response) = enc :: encs /\
      Response.encoding response' = Some enc)).
Proof.
  cbv zeta. unfold _get_html_from_response.
  destruct (_ ≫= _) as [lit|]; [by split_and!; try left|].
  case_decide as Henc; [by split_and!; try left|].
  destruct (Response.headers response !! "content-type") as [ct|];
    [|by split_and!; try left].
  destruct (negb (contains "charset" ct)); [|by split_and!; try left].
  destruct (get_encodings_from_content E (text E response)) as [|enc encs] eqn:He;
    [by split_and!; try left|].
  cbn [snd Response.set_encoding Response.headers Response.content
       Response.status_code Response.encoding].
  split_and!; try done. right. split; [done|]. by exists enc, encs.
Qed.

(** Normalising again the response the normaliser left behind gives the
    same value and changes nothing more: the result of a fetch can be
    re-read from a stored response. *)
Theorem normalizer_stable (E : Env) (config : Configuration.t)
    (response : Response.t) :
  _get_html_from_response E config
    (snd (_get_html_from_response E config response))
  = _get_html_from_response E config response.
Proof.
  unfold _get_html_from_response at 2 3.
  destruct (Response.headers response !! "content-type" ≫= _) as [lit|] eqn:Hig.
  { cbn [snd]. unfold _get_html_from_response. by rewrite Hig. }
  case_decide as Henc.
  { cbn [snd]. unfold _get_html_from_response. rewrite Hig.
    by rewrite decide_True. }
  destruct (Response.headers response !! "content-type") as [ct|] eqn:Hct.
  2: { cbn [snd]. unfold _get_html_from_response. rewrite Hct. simpl.
       by rewrite decide_False by (intros Hn; by apply Hn). }
  simpl in Hig.
  destruct (contains "charset" ct) eqn:Hcs; cbn [negb].
  { cbn [snd]. unfold _get_html_from_response. rewrite Hct. simpl.
    rewrite Hig, Hcs. by rewrite decide_False by (intros Hn; by apply Hn). }
  destruct (get_encodings_from_content E (text E response)) as [|enc encs] eqn:He.
  { cbn [snd]. unfold _get_html_from_response. rewrite Hct. simpl.
    rewrite Hig, Hcs, He.
    by rewrite decide_False by (intros Hn; by apply Hn). }
  cbn [snd]. unfold _get_html_from_response.
  cbn [Response.set_encoding Response.headers Response.encoding].
  rewrite Hct. simpl. rewrite Hig.
  destruct (decide (Some enc <> Some FAIL_ENCODING)) as [Hne|Heq]; [done|].
  apply dec_stable in Heq. injection Heq as ->.
  rewrite Hcs. cbn [negb].
  assert (Hsame : Response.set_encoding (Some FAIL_ENCODING) response = response).
  { rewrite <- Henc. apply set_encoding_same. }
  unfold text in *. rewrite !Hsame, He. by rewrite Hsame.
Qed.

(* ===================================================================== *)
(** ** More on get_request_kwargs *)
(* ===================================================================== *)

Lemma fill_jar_result (E : Env) (cs : list loc) (jar jar' : list cookie)
    (w w' : World) :
  fill_jar E cs jar w = (Ret jar', w') ->
  exists new : list cookie,
    jar' = (jar ++ new)%list /\
    Forall2 (fun l k => exists c : cookie,
               heap w !! l = Some c /\ create_cookie E (strip c) = Ret k)
      cs new /\
    (forall l : loc, l ∈ cs ->
       exists c : cookie, heap w !! l = Some c /\ heap w' !! l = Some (strip c)).
Proof.
  revert jar w. induction cs as [|l cs IH]; intros jar w Hrun.
  { injection Hrun as <- <-. exists []. rewrite app_nil_r.
    split_and!; [done|constructor|]. intros l Hl. by apply elem_of_nil in Hl. }
  pose proof Hrun as Hrun0.
  cbn [fill_jar] in Hrun. unfold bind at 1 in Hrun. unfold deref at 1 in Hrun.
  destruct (heap w !! l) as [c|] eqn:Hl; [|done].
  unfold bind at 1 in Hrun. unfold store at 1 in Hrun.
  set (w1 := set_heap (<[l := strip c]> (heap w)) w) in Hrun.
  unfold bind at 1 in Hrun. unfold deref at 1 in Hrun.
  assert (Hl1 : heap w1 !! l = Some (strip c)) by apply lookup_insert_eq.
  rewrite Hl1 in Hrun. unfold bind at 1 in Hrun.
  unfold lift_outcome at 1 in Hrun.
  destruct (create_cookie E (strip c)) as [k|e] eqn:Hk; [|done].
  assert (Hback : forall (l' : loc) (c' : cookie),
            heap w1 !! l' = Some c' ->
            exists c0 : cookie, heap w !! l' = Some c0 /\ strip c0 = strip c').
  { intros l' c' Hl'. destruct (decide (l = l')) as [<-|Hne].
    - exists c. split; [done|]. rewrite Hl1 in Hl'. injection Hl' as <-.
      by rewrite strip_idem.
    - exists c'. split; [|done]. subst w1. simpl in Hl'.
      by rewrite lookup_insert_ne in Hl'. }
  destruct (fill_jar_frame _ _ _ _ _ _ Hrun) as (_ & _ & Hstr).
  destruct (IH _ _ Hrun) as (new & -> & Hall & Hheap).
  exists (k :: new). split_and!.
  - by rewrite <- app_assoc.
  - constructor; [by exists c|].
    eapply Forall2_impl; [exact Hall|]. intros l' k' (c' & Hc' & Hk').
    destruct (Hback l' c' Hc') as (c0 & Hc0 & Heq).
    exists c0. split; [done|]. by rewrite Heq.
  - intros l' [->|Hin]%elem_of_cons.
    + exists c. split; [done|].
      destruct (Hstr l (strip c) Hl1) as [?|[_ Hs]]; [done|].
      by rewrite strip_idem in Hs.
    + destruct (Hheap l' Hin) as (c' & Hc' & Hs).
      destruct (Hback l' c' Hc') as (c0 & Hc0 & Heq).
      exists c0. split; [done|]. by rewrite Heq.
Qed.

(** When [get_request_kwargs] returns, redirects are always followed,
    timeout and proxies are the ones given, the headers are the given ones
    unless they are [None] or empty, in which case they are the single
    [User-Agent] entry; every cookie handed to [jar.set_cookie] was created
    from the stripped form of a record of the list; and every record of
    the list has been replaced by its stripped form. *)
Theorem get_request_kwargs_result (E : Env) (timeout : Z) (useragent : string)
    (proxies : gmap string string) (headers : option (gmap string string))
    (cs : list loc) (w w' : World) (kw : request_kwargs) :
  get_request_kwargs E timeout useragent proxies headers cs w = (Ret kw, w') ->
  kw_allow_redirects kw = true /\
  kw_timeout kw = timeout /\
  kw_proxies kw = proxies /\
  (headers = None \/ headers = Some ∅ ->
   kw_headers kw = {[ "User-Agent" := useragent ]}) /\
  (forall h : gmap string string,
     headers = Some h -> h <> ∅ -> kw_headers kw = h) /\
  (forall k : cookie, k ∈ kw_cookies kw ->
     exists (l : loc) (c : cookie),
       l ∈ cs /\ heap w !! l = Some c /\ create_cookie E (strip c) = Ret k) /\
  (forall l : loc, l ∈ cs ->
     exists c : cookie, heap w !! l = Some c /\ heap w' !! l = Some (strip c)).
Proof.
  unfold get_request_kwargs, bind. intros Hrun.
  destruct (fill_jar E cs [] w) as [[jar|e] w1] eqn:Hf; [|done].
  injection Hrun as <- <-.
  destruct (fill_jar_result _ _ _ _ _ _ Hf) as (new & -> & Hall & Hheap).
  cbn [kw_allow_redirects kw_timeout kw_proxies kw_headers kw_cookies app].
  split_and!; try done.
  - intros [->| ->]; [done|]. simpl. by rewrite decide_True.
  - intros h -> Hne. simpl. by rewrite decide_False.
  - intros k Hk. apply list_elem_of_lookup in Hk as [i Hi].
    destruct (Forall2_lookup_r _ _ _ _ _ Hall Hi) as (l & Hl & c & Hc & Hk).
    exists l, c. split_and!; [|done|done].
    apply list_elem_of_lookup. by exists i.
Qed.

Lemma get_request_kwargs_result_witness :
  exists (kw : request_kwargs) (w' : World),
    get_request_kwargs Example.env 7 "newspaper" ∅ None [1%positive]
      Example.world = (Ret kw, w') /\
    kw_allow_redirects kw = true /\
    kw_headers kw = {[ "User-Agent" := "newspaper" ]} /\
    (forall k : cookie, k ∈ kw_cookies kw ->
       exists (l : loc) (c : cookie),
         l ∈ [1%positive] /\ heap Example.world !! l = Some c /\
         create_cookie Example.env (strip c) = Ret k) /\
    heap w' !! 1%positive = Some (strip Example.session_cookie).
Proof.
  eexists _, _. split; [vm_compute; reflexivity|].
  destruct (get_request_kwargs_result Example.env 7 "newspaper" ∅ None
              [1%positive] Example.world _ _ eq_refl)
    as (Hr & _ & _ & Hh & _ & Hjar & _).
  split; [exact Hr|]. split; [apply Hh; by left|].
  split; [exact Hjar|]. vm_compute. reflexivity.
Defined.

(** A record that [create_cookie] rejects stops the loop: the exception of
    [create_cookie] comes out of [fill_jar]. *)
Lemma fill_jar_rejects (E : Env) (cs : list loc) (jar : list cookie)
    (w : World) :
  (forall l : loc, l ∈ cs -> is_Some (heap w !! l)) ->
  (exists (l : loc) (c : cookie),
     l ∈ cs /\ heap w !! l = Some c /\ ~ accepted E c) ->
  exists (e : exn) (c' : cookie) (w' : World),
    fill_jar E cs jar w = (Raise e, w') /\ create_cookie E c' = Raise e.
Proof.
  revert jar w. induction cs as [|l0 cs IH]; intros jar w Hall (l & c & Hl & Hc & Hrej).
  { by apply elem_of_nil in Hl. }
  cbn [fill_jar]. unfold bind at 1. unfold deref at 1.
  destruct (Hall l0) as [c0 Hc0]; [by left|]. rewrite Hc0.
  unfold bind at 1. unfold store at 1.
  unfold bind at 1. unfold deref at 1. cbn [heap set_heap].
  rewrite lookup_insert_eq.
  unfold bind at 1. unfold lift_outcome at 1.
  destruct (create_cookie E (strip c0)) as [k|e] eqn:Hk.
  2: { by eexists e, (strip c0), _. }
  assert (Hne : l0 <> l).
  { intros ->. apply Hrej. exists k. congruence. }
  apply IH.
  - intros l' Hin. cbn [heap set_heap].
    destruct (decide (l0 = l')) as [<-|Hne'].
    + rewrite lookup_insert_eq. by eexists.
    + rewrite lookup_insert_ne by done. apply Hall. by right.
  - exists l, c. split_and!; [|by cbn; rewrite lookup_insert_ne|done].
    apply elem_of_cons in Hl as [->|?]; done.
Qed.

(* ===================================================================== *)
(** ** More on the single-fetch entry points *)
(* ===================================================================== *)

(** With no cookie file configured, a configured cookie record that
    [create_cookie] rejects makes both entry points raise the exception of
    [create_cookie] (which is no request exception) before any request is
    sent and before anything is logged: [get_html] does not turn this
    failure into the empty string. *)
Theorem rejected_cookie_stops_fetch (E : Env) (url : string)
    (cfg : Configuration.t) (w : World) :
  Configuration.cookies_file cfg = "" ->
  (forall l : loc, l ∈ Configuration.cookies cfg -> is_Some (heap w !! l)) ->
  (exists (l : loc) (c : cookie),
     l ∈ Configuration.cookies cfg /\ heap w !! l = Some c /\ ~ accepted E c) ->
  (forall (c : cookie) (e : exn),
     create_cookie E c = Raise e -> is_RequestException e = false) ->
  exists (e : exn) (w' : World),
    get_html_2XX_only E url (Some cfg) None w = (Raise e, w') /\
    get_html E url (Some cfg) None w = (Raise e, w') /\
    is_RequestException e = false /\
    trace w' = trace w.
Proof.
  intros Hfile Hall Hrej Hexn.
  destruct (fill_jar_rejects E (Configuration.cookies cfg) [] w Hall Hrej)
    as (e & c' & w' & Hfill & Hc').
  assert (Hinner : get_html_2XX_only E url (Some cfg) None w = (Raise e, w')).
  { unfold get_html_2XX_only, load_cookies_2XX, bind.
    cbn [config_or_default]. unfold ret at 1. rewrite Hfile.
    rewrite decide_False by (intros Hn; by apply Hn).
    unfold ret at 1. unfold fetch_2XX, get_request_kwargs, bind.
    by rewrite Hfill. }
  exists e, w'. split_and!.
  - done.
  - unfold get_html, try_except. rewrite Hinner.
    by rewrite (Hexn c' e Hc').
  - by eapply Hexn.
  - by destruct (fill_jar_frame _ _ _ _ _ _ Hfill) as (-> & _).
Qed.

Lemma rejected_cookie_stops_fetch_witness :
  let w := {| heap := {[ 1%positive := {[ "domain" := VStr "up" ]} ]};
              trace := [] |} in
  exists (e : exn) (w' : World),
    get_html_2XX_only Example.env "http://up/"
      (Some Example.config_with_cookie) None w = (Raise e, w') /\
    get_html Example.env "http://up/"
      (Some Example.config_with_cookie) None w = (Raise e, w') /\
    is_RequestException e = false /\
    trace w' = trace w.
Proof.
  intros w.
  apply (rejected_cookie_stops_fetch Example.env "http://up/"
           Example.config_with_cookie w).
  - reflexivity.
  - intros l Hl. apply list_elem_of_singleton in Hl as ->.
    vm_compute. by eexists.
  - exists 1%positive, {[ "domain" := VStr "up" ]}.
    split_and!; [by left|reflexivity|].
    intros [k Hk]. vm_compute in Hk. discriminate Hk.
  - intros c e. unfold Example.env, create_cookie, Example.create_cookie.
    destruct (c !! "name"), (c !! "value"); intros [= <-]; reflexivity.
Defined.

Lemma load_cookies_2XX_accepted (E : Env) (cfg : Configuration.t) (w : World) :
  cookies_accepted E (Configuration.cookies cfg) w ->
  file_accepted E (Configuration.cookies_file cfg) ->
  exists (cs : list loc) (w1 : World),
    load_cookies_2XX E cfg w = (Ret cs, w1) /\
    cookies_accepted E cs w1 /\
    filter is_Get (trace w1) = filter is_Get (trace w).
Proof.
  intros Hacc Hfile. unfold load_cookies_2XX. case_decide as Hpath.
  2: { by exists (Configuration.cookies cfg), w. }
  unfold bind at 1. unfold log at 1. unfold try_except.
  set (w0 := emit (Log INFO MsgLoadingCookieFile) w).
  pose proof (open_json_load_spec E (Configuration.cookies_file cfg) w0) as Hload.
  destruct (json_load E (trace w0) (Configuration.cookies_file cfg))
    as [loaded|e] eqn:Hjson.
  - destruct Hload as (ls & w1 & -> & Halloc).
    destruct (alloc_all_spec loaded
                (emit (Open (Configuration.cookies_file cfg)) w0))
      as (ls' & w1' & Heq & Htr & _ & Hls).
    rewrite Halloc in Heq. injection Heq as <- <-.
    exists ls, w1. split_and!; [done| |].
    + intros l Hl. destruct (Hls l Hl) as (_ & c & Hin & Hc).
      exists c. split; [done|]. by eapply Hfile.
    + rewrite Htr. simpl. rewrite !filter_app. simpl. by rewrite !app_nil_r.
  - rewrite Hload. cbn [is_Exception]. unfold bind, log, ret.
    eexists _, _. split_and!; [done| |].
    + intros l Hl. by apply Hacc.
    + simpl. rewrite !filter_app. simpl. by rewrite !app_nil_r.
Qed.

(** A fetch over the network, cookie records accepted: exactly one
    request is sent, and the outcome is decided in this order: an exception
    of [requests.get] is raised as it is; otherwise an exception of the
    normaliser is raised; otherwise, if [http_success_only] is set and the
    status check raises, that exception is raised and the page is dropped;
    otherwise the page is returned, whatever the status. *)
Theorem single_fetch_outcome (E : Env) (url : string) (cfg : Configuration.t)
    (w : World) :
  cookies_accepted E (Configuration.cookies cfg) w ->
  file_accepted E (Configuration.cookies_file cfg) ->
  exists (kw : request_kwargs) (h : list event) (w' : World),
    filter is_Get h = filter is_Get (trace w) /\
    filter is_Get (trace w') = (filter is_Get (trace w) ++ [Get url kw])%list /\
    get_html_2XX_only E url (Some cfg) None w =
    (match requests_get E h url kw with
     | Raise e => Raise e
     | Ret r =>
         match _get_html_from_response E cfg r with
         | (Raise e, _) => Raise e
         | (Ret page, r') =>
             if Configuration.http_success_only cfg then
               match raise_for_status E r' with
               | Ret _ => Ret page
               | Raise e => Raise e
               end
             else Ret page
         end
     end, w').
Proof.
  intros Hacc Hfile.
  destruct (load_cookies_2XX_accepted E cfg w Hacc Hfile)
    as (cs & w1 & Hload & Hacc1 & Hget1).
  destruct (get_request_kwargs_success E (Configuration.request_timeout cfg)
              (Configuration.browser_user_agent cfg)
              (Configuration.proxies cfg) (Configuration.headers cfg)
              cs w1 Hacc1) as [kw Hkw].
  destruct (get_request_kwargs E (Configuration.request_timeout cfg)
              (Configuration.browser_user_agent cfg)
              (Configuration.proxies cfg) (Configuration.headers cfg) cs w1)
    as [okw w2] eqn:Hrun.
  simpl in Hkw. subst okw.
  destruct (get_request_kwargs_frame _ _ _ _ _ _ _ _ _ Hrun) as (Htr & _ & _).
  exists kw, (trace w2), (emit (Get url kw) w2). split_and!.
  - by rewrite Htr.
  - simpl. rewrite filter_app, Htr, Hget1. done.
  - unfold get_html_2XX_only, bind. cbn [config_or_default]. unfold ret at 1.
    rewrite Hload. unfold fetch_2XX, bind. rewrite Hrun. unfold get.
    destruct (requests_get E (trace w2) url kw) as [r|e]; [|done].
    destruct (_get_html_from_response E cfg r) as [[page|e] r'];
      unfold lift_outcome, ret; [|done].
    destruct (Configuration.http_success_only cfg); [|done].
    by destruct (raise_for_status E r') as [[]|e].
Qed.

Lemma single_fetch_outcome_witness :
  exists (kw : request_kwargs) (h : list event) (w' : World),
    filter is_Get h = filter is_Get (trace Example.world) /\
    filter is_Get (trace w') =
      (filter is_Get (trace Example.world) ++ [Get "http://up/missing" kw])%list /\
    get_html_2XX_only Example.env "http://up/missing"
      (Some Example.config_with_cookie) None Example.world =
    (match requests_get Example.env h "http://up/missing" kw with
     | Raise e => Raise e
     | Ret r =>
         match _get_html_from_response Example.env
                 Example.config_with_cookie r with
         | (Raise e, _) => Raise e
         | (Ret page, r') =>
             if Configuration.http_success_only Example.config_with_cookie then
               match raise_for_status Example.env r' with
               | Ret _ => Ret page
               | Raise e => Raise e
               end
             else Ret page
         end
     end, w').
Proof.
  apply (single_fetch_outcome Example.env "http://up/missing"
           Example.config_with_cookie Example.world).
  - intros l Hl. apply list_elem_of_singleton in Hl as ->.
    exists Example.session_cookie. split; [reflexivity|].
    exists (strip Example.session_cookie). vm_compute. reflexivity.
  - intros h loaded c Hload. vm_compute in Hload. discriminate Hload.
Defined.




(* ===================================================================== *)
(** ** More on MRequest.send *)
(* ===================================================================== *)

(** Lines 134-142 as one equation. *)
Lemma load_cookies_send_eq (E : Env) (self : MRequest.t) (w : World) :
  let path := MRequest.cookies_file self in
  let w0 := if decide (path <> "")
            then emit (Log INFO MsgLoadingCookieFile) w else w in
  MRequest.load_cookies_send E self w =
  match json_load E (trace w0) path with
  | Ret loaded => alloc_all loaded (emit (Open path) w0)
  | Raise e =>
      (Ret (MRequest.cookies self),
       emit (Log ERROR (MsgFailedLoading path e)) (emit (Open path) w0))
  end.
Proof.
  cbv zeta. unfold MRequest.load_cookies_send. unfold bind at 1.
  assert (Hlog : (if decide (MRequest.cookies_file self <> "")
                  then log INFO MsgLoadingCookieFile else ret tt) w =
                 (Ret tt, if decide (MRequest.cookies_file self <> "")
                          then emit (Log INFO MsgLoadingCookieFile) w else w)).
  { by case_decide. }
  rewrite Hlog. clear Hlog.
  set (w0 := if decide (MRequest.cookies_file self <> "")
             then emit (Log INFO MsgLoadingCookieFile) w else w).
  unfold try_except.
  pose proof (open_json_load_spec E (MRequest.cookies_file self) w0) as Hload.
  destruct (json_load E (trace w0) (MRequest.cookies_file self)) as [loaded|e].
  - destruct Hload as (ls & w' & -> & ->). done.
  - by rewrite Hload.
Qed.

Lemma send_unfold (E : Env) (self : MRequest.t) (w w1 : World)
    (cs : list loc) :
  MRequest.load_cookies_send E self w = (Ret cs, w1) ->
  MRequest.send E (self, w) = MRequest.send_with E cs (self, w1).
Proof.
  intros Hload. unfold MRequest.send, bind, on_world. cbn [fst snd].
  by rewrite Hload.
Qed.

Lemma filter_is_Get_emit_Log (lvl : level) (msg : log_msg) (w : World) :
  filter is_Get (trace (emit (Log lvl msg) w)) = filter is_Get (trace w).
Proof. simpl. rewrite filter_app. simpl. by rewrite app_nil_r. Qed.

Lemma filter_is_Get_emit_Open (path : string) (w : World) :
  filter is_Get (trace (emit (Open path) w)) = filter is_Get (trace w).
Proof. simpl. rewrite filter_app. simpl. by rewrite app_nil_r. Qed.

(** What lines 134-142 leave behind: the file was opened, no request was
    sent, and the cookie list is the configured one or a list of new
    dicts. *)
Lemma load_cookies_send_effects (E : Env) (self : MRequest.t) (w : World) :
  exists (cs : list loc) (w1 : World),
    MRequest.load_cookies_send E self w = (Ret cs, w1) /\
    filter is_Get (trace w1) = filter is_Get (trace w) /\
    Open (MRequest.cookies_file self) ∈ trace w1 /\
    heap w ⊆ heap w1 /\
    ((cs = MRequest.cookies self /\ heap w1 = heap w /\
      exists (h : list event) (e : exn),
        json_load E h (MRequest.cookies_file self) = Raise e /\
        Log ERROR (MsgFailedLoading (MRequest.cookies_file self) e) ∈ trace w1) \/
     (exists (h : list event) (loaded : list cookie),
        json_load E h (MRequest.cookies_file self) = Ret loaded /\
        forall l : loc, l ∈ cs ->
          heap w !! l = None /\
          exists c : cookie, c ∈ loaded /\ heap w1 !! l = Some c)).
Proof.
  pose proof (load_cookies_send_eq E self w) as Heq. cbv zeta in Heq.
  set (w0 := if decide (MRequest.cookies_file self <> "")
             then emit (Log INFO MsgLoadingCookieFile) w else w) in Heq.
  assert (Hw0 : filter is_Get (trace w0) = filter is_Get (trace w) /\
                heap w0 = heap w).
  { subst w0. case_decide; [|done]. split; [apply filter_is_Get_emit_Log|done]. }
  destruct Hw0 as [Hget0 Hheap0].
  destruct (json_load E (trace w0) (MRequest.cookies_file self))
    as [loaded|e] eqn:Hjson.
  - destruct (alloc_all_spec loaded (emit (Open (MRequest.cookies_file self)) w0))
      as (ls & w1 & Halloc & Htr & Hsub & Hls).
    exists ls, w1. rewrite Heq. split_and!; [done| | | |].
    + by rewrite Htr, filter_is_Get_emit_Open.
    + rewrite Htr. apply elem_of_emit.
    + by rewrite <- Hheap0.
    + right. exists (trace w0), loaded. split; [done|].
      intros l Hl. rewrite <- Hheap0. by apply Hls.
  - eexists _, _. rewrite Heq. split_and!; [done| | | |].
    + by rewrite filter_is_Get_emit_Log, filter_is_Get_emit_Open.
    + eapply trace_extends_elem; [apply trace_extends_emit | apply elem_of_emit].
    + simpl. by rewrite Hheap0.
    + left. split_and!; [done|done|].
      exists (trace w0), e. split; [done | apply elem_of_emit].
Qed.

Lemma load_cookies_send_accepted (E : Env) (self : MRequest.t) (w : World) :
  cookies_accepted E (MRequest.cookies self) w ->
  file_accepted E (MRequest.cookies_file self) ->
  exists (cs : list loc) (w1 : World),
    MRequest.load_cookies_send E self w = (Ret cs, w1) /\
    cookies_accepted E cs w1 /\
    filter is_Get (trace w1) = filter is_Get (trace w).
Proof.
  intros Hacc Hfile.
  destruct (load_cookies_send_effects E self w)
    as (cs & w1 & Hload & Hget & _ & Hsub & Hcs).
  exists cs, w1. split_and!; [done| |done].
  destruct Hcs as [(-> & Hheap & _)|(h & loaded & Hjson & Hfresh)].
  - intros l Hl. rewrite Hheap. by apply Hacc.
  - intros l Hl. destruct (Hfresh l Hl) as (_ & c & Hin & Hc).
    exists c. split; [done|]. by eapply Hfile.
Qed.



(** [send] opens the cookie file whatever the path is, also the empty
    path of a configuration without cookie file, and whenever that load
    raises, the failure is logged as an error.  [get_html_2XX_only] with
    the empty path and a response handed in opens no file, logs nothing,
    sends nothing and touches no cookie dict. *)
Theorem send_always_opens_cookie_file (E : Env) (self : MRequest.t)
    (w : World) :
  let path := MRequest.cookies_file self in
  let w0 := if decide (path <> "")
            then emit (Log INFO MsgLoadingCookieFile) w else w in
  let w' := snd (snd (MRequest.send E (self, w))) in
  Open path ∈ trace w' /\
  (forall e : exn,
     json_load E (trace w0) path = Raise e ->
     Log ERROR (MsgFailedLoading path e) ∈ trace w') /\
  (forall (url : string) (cfg : Configuration.t) (r : Response.t),
     Configuration.cookies_file cfg = "" ->
     trace (snd (get_html_2XX_only E url (Some cfg) (Some r) w)) = trace w /\
     heap (snd (get_html_2XX_only E url (Some cfg) (Some r) w)) = heap w).
Proof.
  cbv zeta.
  pose proof (load_cookies_send_eq E self w) as Heq. cbv zeta in Heq.
  destruct (load_cookies_send_effects E self w)
    as (cs & w1 & Hload & _ & Hopen & _ & _).
  rewrite (send_unfold _ _ _ _ _ Hload).
  destruct (send_with_shape E cs self w1)
    as (o & ro & w' & -> & _ & Hext & _).
  cbn [snd]. split_and!.
  - by eapply trace_extends_elem.
  - intros e He. rewrite He, Hload in Heq.
    apply (f_equal snd) in Heq. cbn [snd] in Heq. rewrite Heq in Hext.
    eapply trace_extends_elem; [exact Hext | apply elem_of_emit].
  - intros url cfg r Hpath.
    assert (Hrun : get_html_2XX_only E url (Some cfg) (Some r) w =
                   (fst (_get_html_from_response E cfg r), w)).
    { unfold get_html_2XX_only, load_cookies_2XX, bind.
      cbn [config_or_default]. unfold ret at 1. rewrite Hpath.
      by rewrite decide_False by (intros Hn; by apply Hn). }
    by rewrite Hrun.
Qed.

(** One run of [send] for a task that has a configuration, on accepted
    cookie records: exactly one request is sent.  If [requests.get] raises
    a request exception, [resp] is left as it was, the exception is logged
    as critical and [send] returns; another exception leaves [send].  If
    [requests.get] returns a response, [resp] holds exactly that response;
    the status check, when enabled, may then raise, and a request
    exception it raises is logged as critical and goes no further.  No
    request exception ever leaves [send]. *)
Theorem send_outcome (E : Env) (self : MRequest.t) (cfg : Configuration.t)
    (w : World) :
  MRequest.config self = Some cfg ->
  cookies_accepted E (MRequest.cookies self) w ->
  file_accepted E (MRequest.cookies_file self) ->
  (exists (kw : request_kwargs) (h : list event) (w3 : World),
     filter is_Get h = filter is_Get (trace w) /\
     filter is_Get (trace w3) =
       (filter is_Get (trace w) ++ [Get (MRequest.url self) kw])%list /\
     MRequest.send E (self, w) =
     match requests_get E h (MRequest.url self) kw with
     | Raise e => send_handler e (self, w3)
     | Ret r =>
         let self' := MRequest.set_resp (Some r) self in
         if Configuration.http_success_only cfg then
           match raise_for_status E r with
           | Ret _ => (Ret tt, (self', w3))
           | Raise e => send_handler e (self', w3)
           end
         else (Ret tt, (self', w3))
     end) /\
  (forall e : request_exception,
     fst (MRequest.send E (self, w)) <> Raise (RequestException e)).
Proof.
  intros Hcfg Hacc Hfile. split.
  2: { intros e.
       destruct (send_shape E self w) as (o & ro & w' & -> & _ & _ & _ & _ & Hno).
       apply Hno. }
  destruct (load_cookies_send_accepted E self w Hacc Hfile)
    as (cs & w1 & Hload & Hacc1 & Hget1).
  rewrite (send_unfold _ _ _ _ _ Hload), send_with_cases.
  destruct (get_request_kwargs_success E (MRequest.timeout self)
              (MRequest.useragent self) (MRequest.proxies self)
              (MRequest.headers self) cs w1 Hacc1) as [kw Hkw].
  destruct (get_request_kwargs _ _ _ _ _ _ _) as [okw w2] eqn:Hrun.
  simpl in Hkw. subst okw.
  apply get_request_kwargs_frame in Hrun as (Htr & _ & _).
  exists kw, (trace w2), (emit (Get (MRequest.url self) kw) w2).
  split_and!.
  - by rewrite Htr.
  - simpl. by rewrite filter_app, Htr, Hget1.
  - by rewrite Hcfg.
Qed.

Lemma send_outcome_witness :
  let self := task_of Example.config_with_cookie "http://down/" None in
  (exists (kw : request_kwargs) (h : list event) (w3 : World),
     filter is_Get h = filter is_Get (trace Example.world) /\
     filter is_Get (trace w3) =
       (filter is_Get (trace Example.world) ++
        [Get (MRequest.url self) kw])%list /\
     MRequest.send Example.env (self, Example.world) =
     match requests_get Example.env h (MRequest.url self) kw with
     | Raise e => send_handler e (self, w3)
     | Ret r =>
         let self' := MRequest.set_resp (Some r) self in
         if Configuration.http_success_only Example.config_with_cookie then
           match raise_for_status Example.env r with
           | Ret _ => (Ret tt, (self', w3))
           | Raise e => send_handler e (self', w3)
           end
         else (Ret tt, (self', w3))
     end) /\
  (forall e : request_exception,
     fst (MRequest.send Example.env (self, Example.world)) <>
     Raise (RequestException e)).
Proof.
  intros self.
  apply (send_outcome Example.env self Example.config_with_cookie
           Example.world).
  - reflexivity.
  - intros l Hl. apply list_elem_of_singleton in Hl as ->.
    exists Example.session_cookie. split; [reflexivity|].
    exists (strip Example.session_cookie). vm_compute. reflexivity.
  - intros h loaded c Hload. vm_compute in Hload. discriminate Hload.
Defined.

(* ===================================================================== *)
(** ** More on the batch *)
(* ===================================================================== *)

(** A batch called without a configuration builds one default
    configuration and gives it to every task: every task that comes back
    carries that configuration, so no task of a batch is without one. *)
Theorem batch_tasks_share_one_configuration (E : Env) (urls : list string)
    (config : option Configuration.t) (w : World) :
  exists (cfg : Configuration.t) (w0 : World) (reqs : list MRequest.t)
         (w' : World),
    config_or_default E config w = (Ret cfg, w0) /\
    multithread_request E urls config w = (Ret reqs, w') /\
    Forall2 (fun u r => exists ro, r = task_of cfg u ro) urls reqs /\
    Forall (fun r => MRequest.config r = Some cfg) reqs.
Proof.
  destruct (multithread_request_unfold E urls config w)
    as (cfg & w0 & Hcfg & Heq).
  cbv zeta in Heq. rewrite Heq. clear Heq.
  exists cfg, w0. eexists _, _. split; [done|]. split; [done|].
  set (P := fun (_ : list nat) (s : list MRequest.t * World) =>
              Forall2 (fun u r => exists ro, r = task_of cfg u ro) urls (fst s)).
  assert (Hshape : Forall2 (fun u r => exists ro, r = task_of cfg u ro) urls
            (fst (ThreadPool.run_order (map (bound_send E) (seq 0 (length urls)))
                    (pool_order E (Configuration.number_threads cfg)
                       (Configuration.thread_timeout_seconds cfg) (length urls))
                    [] (map (fun u => task_of cfg u None) urls, w0)))).
  { destruct (run_order_invariant P
                (map (bound_send E) (seq 0 (length urls)))
                (pool_order E (Configuration.number_threads cfg)
                   (Configuration.thread_timeout_seconds cfg) (length urls))
                [] (map (fun u => task_of cfg u None) urls, w0))
      as (fin & HP & _); [| |exact HP].
    - intros k task fin [reqs w1] Hk _ Hshape.
      apply bound_send_lookup in Hk as [-> _].
      unfold P in *. cbn [fst snd] in *. unfold bound_send.
      destruct (reqs !! k) as [req|] eqn:Hreq; [|done].
      destruct (Forall2_lookup_r _ _ _ _ _ Hshape Hreq) as (u & Hu & ro & ->).
      destruct (send_shape E (task_of cfg u ro) w1) as (o & ro' & w' & -> & _).
      cbn [fst snd]. rewrite <- (list_insert_id urls k u Hu).
      apply Forall2_insert; [done | by exists ro'].
    - unfold P. cbn [fst].
      apply Forall2_fmap_r, Forall_Forall2_diag, Forall_forall.
      intros u _. by exists None. }
  split; [done|].
  apply Forall_forall. intros r Hr.
  apply list_elem_of_lookup in Hr as [i Hi].
  destruct (Forall2_lookup_r _ _ _ _ _ Hshape Hi) as (u & _ & ro & ->). done.
Qed.

Lemma load_cookies_2XX_loaded (E : Env) (cfg : Configuration.t) (w : World) :
  Configuration.cookies_file cfg <> "" ->
  (forall h : list event,
     exists loaded : list cookie,
       json_load E h (Configuration.cookies_file cfg) = Ret loaded) ->
  exists (cs : list loc) (w1 : World),
    load_cookies_2XX E cfg w = (Ret cs, w1) /\
    heap w ⊆ heap w1 /\
    (forall l : loc, l ∈ cs -> heap w !! l = None).
Proof.
  intros Hpath Hok. unfold load_cookies_2XX.
  rewrite decide_True by done.
  unfold bind at 1. unfold log at 1. unfold try_except.
  set (w0 := emit (Log INFO MsgLoadingCookieFile) w).
  pose proof (open_json_load_spec E (Configuration.cookies_file cfg) w0) as Hload.
  destruct (Hok (trace w0)) as [loaded Hjson]. rewrite Hjson in Hload.
  destruct Hload as (ls & w1 & -> & Halloc).
  destruct (alloc_all_spec loaded
              (emit (Open (Configuration.cookies_file cfg)) w0))
    as (ls' & w1' & Heq & _ & Hsub & Hls).
  rewrite Halloc in Heq. injection Heq as <- <-.
  exists ls, w1. split_and!; [done|done|].
  intros l Hl. by apply Hls.
Qed.

(** When the cookie file loads, the records of the file are the ones that
    are stripped and sent; every cookie dict that existed before the call,
    those of [config.cookies] included, is left exactly as it was.  This
    holds for a single fetch and for a whole batch. *)
Theorem loaded_cookie_file_spares_configuration (E : Env) (url : string)
    (urls : list string) (cfg : Configuration.t)
    (response : option Response.t) (w : World) :
  Configuration.cookies_file cfg <> "" ->
  (forall h : list event,
     exists loaded : list cookie,
       json_load E h (Configuration.cookies_file cfg) = Ret loaded) ->
  (forall (l : loc) (c : cookie),
     heap w !! l = Some c ->
     heap (snd (get_html E url (Some cfg) response w)) !! l = Some c) /\
  (forall (l : loc) (c : cookie),
     heap w !! l = Some c ->
     heap (snd (multithread_request E urls (Some cfg) w)) !! l = Some c).
Proof.
  intros Hpath Hok.
  assert (Hnil : forall w1 w2 : World,
            only_stripped [] w1 w2 ->
            forall (l : loc) (c : cookie),
              heap w1 !! l = Some c -> heap w2 !! l = Some c).
  { intros w1 w2 Hstr l c Hl. destruct (Hstr l c Hl) as [?|[Hin _]]; [done|].
    by apply elem_of_nil in Hin. }
  split.
  - apply Hnil.
    assert (Hin : only_stripped [] w
              (snd (get_html_2XX_only E url (Some cfg) response w))).
    { unfold get_html_2XX_only, bind. cbn [config_or_default]. unfold ret at 1.
      destruct (load_cookies_2XX_loaded E cfg w Hpath Hok)
        as (cs & w1 & -> & Hsub & Hfresh).
      eapply only_stripped_fresh; [exact Hsub|by right|apply fetch_2XX_frame]. }
    unfold get_html, try_except.
    destruct (get_html_2XX_only E url (Some cfg) response w) as [[page|e] w'];
      [done|].
    by destruct (is_RequestException e).
  - apply Hnil.
    destruct (multithread_request_unfold E urls (Some cfg) w)
      as (cfg' & w0 & Hcfg & Heq).
    injection Hcfg as <- <-. cbv zeta in Heq. rewrite Heq. cbn [snd].
    set (P := fun (_ : list nat) (s : list MRequest.t * World) =>
                Forall2 (fun u r => exists ro, r = task_of cfg u ro) urls (fst s) /\
                only_stripped [] w (snd s)).
    destruct (run_order_invariant P
                (map (bound_send E) (seq 0 (length urls)))
                (pool_order E (Configuration.number_threads cfg)
                   (Configuration.thread_timeout_seconds cfg) (length urls))
                [] (map (fun u => task_of cfg u None) urls, w))
      as (fin & [_ HP] & _); [| |exact HP].
    + intros k task fin [reqs w1] Hk _ [Hshape Hstr].
      apply bound_send_lookup in Hk as [-> _].
      unfold P. cbn [fst snd] in *. unfold bound_send.
      destruct (reqs !! k) as [req|] eqn:Hreq; [|done].
      destruct (Forall2_lookup_r _ _ _ _ _ Hshape Hreq) as (u & Hu & ro & ->).
      destruct (load_cookies_send_effects E (task_of cfg u ro) w1)
        as (cs & w2 & Hload & _ & _ & Hsub & Hcs).
      rewrite (send_unfold _ _ _ _ _ Hload).
      destruct (send_with_shape E cs (task_of cfg u ro) w2)
        as (o & ro' & w' & -> & _ & _ & _ & Hstr' & _).
      cbn [fst snd]. split.
      * rewrite <- (list_insert_id urls k u Hu).
        apply Forall2_insert; [done | by exists ro'].
      * eapply only_stripped_trans; [exact Hstr|].
        eapply only_stripped_fresh; [exact Hsub| |exact Hstr'].
        destruct Hcs as [(_ & _ & h & e & Hfail & _)|(h & loaded & _ & Hfresh)].
        -- destruct (Hok h) as [loaded Hl]. cbn in Hfail. congruence.
        -- right. intros l Hl. by apply Hfresh.
    + split; cbn [fst snd].
      * apply Forall2_fmap_r, Forall_Forall2_diag, Forall_forall.
        intros u _. by exists None.
      * apply only_stripped_refl.
Qed.

Lemma loaded_cookie_file_spares_configuration_witness :
  let cfg :=
    {| Configuration.browser_user_agent := "newspaper";
       Configuration.request_timeout := 7;
       Configuration.proxies := ∅;
       Configuration.headers := None;
       Configuration.cookies := [1%positive];
       Configuration.cookies_file := "cookies.json";
       Configuration.http_success_only := true;
       Configuration.ignored_content_types_defaults := ∅;
       Configuration.number_threads := 2;
       Configuration.thread_timeout_seconds := 1 |} in
  (forall (l : loc) (c : cookie),
     heap Example.world !! l = Some c ->
     heap (snd (get_html Example.env "http://up/" (Some cfg) None
                  Example.world)) !! l = Some c) /\
  (forall (l : loc) (c : cookie),
     heap Example.world !! l = Some c ->
     heap (snd (multithread_request Example.env ["http://up/"; "http://down/"]
                  (Some cfg) Example.world)) !! l = Some c).
Proof.
  intros cfg.
  apply (loaded_cookie_file_spares_configuration Example.env "http://up/"
           ["http://up/"; "http://down/"] cfg None Example.world).
  - discriminate.
  - intros h. exists [Example.session_cookie]. reflexivity.
Defined.
